(** * Escrow custody engine: a shallow embedding of [src/escrowMu.sol]

    The two contracts of the file, [EscrowFactory] and [Escrow], are embedded
    as Rocq functions over their storage records and an account ledger.

    - [uint256] values are integers of [Z]; Solidity 0.8 arithmetic is
      checked, so an operation leaving [0 .. 2^256-1] reverts with a panic.
    - A function body runs in the monad [M]: it returns a result or a revert
      together with the state reached at that point.  An external call
      ([external_call]) keeps the state of a body that returned and restores
      the state of entry when the body reverted, as the EVM does.
    - [payable(a).transfer(v)] moves [v] from the calling contract to [a]; it
      reverts when the contract holds less than [v] or when [a] refuses the
      payment (a contract without a payable receive function).  The stipend
      of 2300 gas leaves the recipient no way to call back, so the transfer
      is one step of the ledger.
    - Events are appended to a log that is part of the state. *)

From stdpp Require Import gmap strings list fin_maps.
From Stdlib Require Import ZArith Lia.

Local Open Scope Z_scope.

Abbreviation address := N (only parsing).

(** ** Checked 256-bit arithmetic *)

Definition MAX_UINT256 : Z := 2 ^ 256 - 1.

Definition is_uint256 (x : Z) : Prop := 0 <= x <= MAX_UINT256.

(** ** Reverts and the execution monad *)

Inductive Revert : Type :=
| Require (reason : string)   (* a failed [require(cond, reason)] *)
| TransferFailed              (* a failed [payable(a).transfer(v)] *)
| Panic.                      (* checked arithmetic out of range *)

Inductive Result (A : Type) : Type :=
| Ok (a : A)
| Err (e : Revert).
Arguments Ok {A} a.
Arguments Err {A} e.

Definition M (S A : Type) : Type := S -> Result A * S.

Definition ret {S A} (a : A) : M S A := fun s => (Ok a, s).

Definition bind {S A B} (m : M S A) (k : A -> M S B) : M S B :=
  fun s => match m s with
           | (Ok a, s') => k a s'
           | (Err e, s') => (Err e, s')
           end.

Definition revert {S A} (e : Revert) : M S A := fun s => (Err e, s).

Definition modify {S} (f : S -> S) : M S unit := fun s => (Ok tt, f s).

Definition require {S} (cond : bool) (reason : string) : M S unit :=
  if cond then ret tt else revert (Require reason).

Notation "x <~ m ;; k" := (bind m (fun x => k))
  (at level 100, m at next level, right associativity).
Notation "m ;;; k" := (bind m (fun _ => k))
  (at level 100, right associativity).

(** An external call: the callee's state changes are kept when it returns
    and discarded when it reverts. *)
Definition external_call {S A} (body : M S A) : M S A :=
  fun s => match body s with
           | (Ok a, s') => (Ok a, s')
           | (Err e, _) => (Err e, s)
           end.

Definition checked_add {S} (a b : Z) : M S Z :=
  if a + b <=? MAX_UINT256 then ret (a + b) else revert Panic.

Definition checked_sub {S} (a b : Z) : M S Z :=
  if b <=? a then ret (a - b) else revert Panic.

Definition checked_mul {S} (a b : Z) : M S Z :=
  if a * b <=? MAX_UINT256 then ret (a * b) else revert Panic.

(** The error taxonomy of the specification, and the class of each revert of
    the contracts. *)
Inductive ErrorKind : Type :=
| InvalidState | Unauthorized | Expired | NotYetExpired
| PolicyViolation | InvalidAmount | TransferFailure | Overflow
| Unclassified.

Definition is_one_of (reason : string) (reasons : list string) : bool :=
  bool_decide (reason ∈ reasons).

Definition reason_kind (reason : string) : ErrorKind :=
  if is_one_of reason
       ["Invalid state"; "Already resolved"; "No active dispute"]%string
  then InvalidState
  else if is_one_of reason
       ["Not a party"; "Only admin"; "Only buyer can confirm";
        "Only seller can confirm"; "Only buyer can refund"]%string
  then Unauthorized
  else if is_one_of reason ["Escrow expired"]%string then Expired
  else if is_one_of reason ["Not expired yet"]%string then NotYetExpired
  else if is_one_of reason ["Max 5% fee"]%string then PolicyViolation
  else if is_one_of reason ["Must send ETH to create escrow"]%string
  then InvalidAmount
  else Unclassified.

Definition error_kind (e : Revert) : ErrorKind :=
  match e with
  | Require reason => reason_kind reason
  | TransferFailed => TransferFailure
  | Panic => Overflow
  end.

(** ** The environment of a call

    [msg.sender], [block.timestamp] and the address of the called contract.
    Only [EscrowFactory.createEscrow] is payable; it takes [msg.value] as an
    argument, and every other call carries no value. *)
Record Env : Type := {
  msg_sender : address;
  block_timestamp : Z;
  this : address
}.

(** ** The account ledger *)

Module Ledger.

Definition balanceOf (l : gmap address Z) (a : address) : Z :=
  default 0 (l !! a).

(** Sum of all balances. *)
Definition total (l : gmap address Z) : Z :=
  map_fold (fun _ v acc => v + acc) 0 l.

Definition non_negative (l : gmap address Z) : Prop :=
  forall a, 0 <= balanceOf l a.

Definition credit (a : address) (v : Z) (l : gmap address Z)
  : gmap address Z :=
  <[a := balanceOf l a + v]> l.

Definition debit (a : address) (v : Z) (l : gmap address Z)
  : gmap address Z :=
  <[a := balanceOf l a - v]> l.

(** Value moved between two accounts; fails when [from] holds less. *)
Definition move (from to : address) (v : Z) (l : gmap address Z)
  : option (gmap address Z) :=
  if balanceOf l from <? v then None
  else Some (credit to v (debit from v l)).

(** [payable(to).transfer(v)] executed by the contract at [from];
    [receives a] tells whether the account [a] accepts a plain payment. *)
Definition transfer (receives : address -> bool) (from to : address) (v : Z)
  (l : gmap address Z) : option (gmap address Z) :=
  if receives to then move from to v l else None.

End Ledger.

(** ** Contract [Escrow] *)

Module Escrow.

Inductive State : Type := AWAITING_DELIVERY | COMPLETE | REFUNDED | DISPUTED.

Inductive Event : Type :=
| FundsReleased
| RefundIssued
| DisputeRaised (by_ : address)
| ResolutionApproved (by_ : address).

Record storage : Type := {
  admin : address;
  buyer : address;
  seller : address;
  expiryTime : Z;
  adminFee : Z;
  amount : Z;
  currentState : State;
  requireMultiSig : bool;
  buyerApproved : bool;
  sellerApproved : bool
}.

(** The contract's storage, the ledger of all accounts and the event log. *)
Record state : Type := {
  store : storage;
  ledger : gmap address Z;
  log : list Event
}.

Definition set_currentState (v : State) (s : storage) : storage :=
  {| admin := admin s; buyer := buyer s; seller := seller s;
     expiryTime := expiryTime s; adminFee := adminFee s; amount := amount s;
     currentState := v; requireMultiSig := requireMultiSig s;
     buyerApproved := buyerApproved s; sellerApproved := sellerApproved s |}.

Definition set_buyerApproved (v : bool) (s : storage) : storage :=
  {| admin := admin s; buyer := buyer s; seller := seller s;
     expiryTime := expiryTime s; adminFee := adminFee s; amount := amount s;
     currentState := currentState s; requireMultiSig := requireMultiSig s;
     buyerApproved := v; sellerApproved := sellerApproved s |}.

Definition set_sellerApproved (v : bool) (s : storage) : storage :=
  {| admin := admin s; buyer := buyer s; seller := seller s;
     expiryTime := expiryTime s; adminFee := adminFee s; amount := amount s;
     currentState := currentState s; requireMultiSig := requireMultiSig s;
     buyerApproved := buyerApproved s; sellerApproved := v |}.

Definition State_eqb (a b : State) : bool :=
  match a, b with
  | AWAITING_DELIVERY, AWAITING_DELIVERY => true
  | COMPLETE, COMPLETE => true
  | REFUNDED, REFUNDED => true
  | DISPUTED, DISPUTED => true
  | _, _ => false
  end.

(** Terminal states of the specification. *)
Definition terminal (s : State) : bool :=
  match s with
  | COMPLETE | REFUNDED => true
  | AWAITING_DELIVERY | DISPUTED => false
  end.

(** Reading and writing the parts of the state. *)
Definition read {A} (f : storage -> A) : M state A :=
  fun st => (Ok (f (store st)), st).

Definition write (f : storage -> storage) : M state unit :=
  modify (fun st =>
    {| store := f (store st); ledger := ledger st; log := log st |}).

Definition emit (e : Event) : M state unit :=
  modify (fun st =>
    {| store := store st; ledger := ledger st; log := log st ++ [e] |}).

(** [constructor] of the contract, called with [msg.value = value] at time
    [now]: the storage of the new contract. *)
Definition constructor {S} (now value : Z) (_buyer _seller _admin : address)
  (_expiryDays : Z) (_requireMultiSig : bool) (_feePercentage : Z)
  : M S storage :=
  product <~ checked_mul value _feePercentage ;;
  duration <~ checked_mul _expiryDays 86400 ;;
  expiry <~ checked_add now duration ;;
  ret {| admin := _admin; buyer := _buyer; seller := _seller;
         expiryTime := expiry; adminFee := product / 10000; amount := value;
         currentState := AWAITING_DELIVERY;
         requireMultiSig := _requireMultiSig;
         buyerApproved := false; sellerApproved := false |}.

Section Functions.

(** Which accounts accept a plain payment. *)
Variable receives : address -> bool.

Variable env : Env.

(** [address(this).balance] *)
Definition balance : M state Z :=
  fun st => (Ok (Ledger.balanceOf (ledger st) (this env)), st).

(** [payable(to).transfer(v)] *)
Definition transfer (to : address) (v : Z) : M state unit :=
  fun st =>
    match Ledger.transfer receives (this env) to v (ledger st) with
    | Some l' => (Ok tt, {| store := store st; ledger := l'; log := log st |})
    | None => (Err TransferFailed, st)
    end.

Definition onlyParties : M state unit :=
  b <~ read buyer ;;
  s <~ read seller ;;
  require ((msg_sender env =? b)%N || (msg_sender env =? s)%N) "Not a party".

Definition onlyAdmin : M state unit :=
  a <~ read admin ;;
  require (msg_sender env =? a)%N "Only admin".

Definition notExpired : M state unit :=
  t <~ read expiryTime ;;
  require (block_timestamp env <? t) "Escrow expired".

Definition _releaseFunds : M state unit :=
  write (set_currentState COMPLETE) ;;;
  deposit <~ read amount ;;
  fee <~ read adminFee ;;
  sellerAmount <~ checked_sub deposit fee ;;
  to <~ read seller ;;
  transfer to sellerAmount ;;;
  a <~ read admin ;;
  fee <~ read adminFee ;;
  transfer a fee ;;;
  emit FundsReleased.

Definition confirmDelivery : M state unit :=
  onlyParties ;;;
  notExpired ;;;
  b <~ read buyer ;;
  require (msg_sender env =? b)%N "Only buyer can confirm" ;;;
  c <~ read currentState ;;
  require (State_eqb c AWAITING_DELIVERY) "Invalid state" ;;;
  multi <~ read requireMultiSig ;;
  if multi then
    write (set_buyerApproved true) ;;;
    emit (ResolutionApproved (msg_sender env)) ;;;
    other <~ read sellerApproved ;;
    if other then _releaseFunds else ret tt
  else _releaseFunds.

Definition confirmPayment : M state unit :=
  onlyParties ;;;
  notExpired ;;;
  s <~ read seller ;;
  require (msg_sender env =? s)%N "Only seller can confirm" ;;;
  c <~ read currentState ;;
  require (State_eqb c AWAITING_DELIVERY) "Invalid state" ;;;
  multi <~ read requireMultiSig ;;
  if multi then
    write (set_sellerApproved true) ;;;
    emit (ResolutionApproved (msg_sender env)) ;;;
    other <~ read buyerApproved ;;
    if other then _releaseFunds else ret tt
  else ret tt.

Definition requestRefund : M state unit :=
  onlyParties ;;;
  notExpired ;;;
  b <~ read buyer ;;
  require (msg_sender env =? b)%N "Only buyer can refund" ;;;
  c <~ read currentState ;;
  require (State_eqb c AWAITING_DELIVERY) "Invalid state" ;;;
  write (set_currentState REFUNDED) ;;;
  b <~ read buyer ;;
  all <~ balance ;;
  transfer b all ;;;
  emit RefundIssued.

Definition raiseDispute : M state unit :=
  onlyParties ;;;
  notExpired ;;;
  c <~ read currentState ;;
  require (State_eqb c AWAITING_DELIVERY) "Invalid state" ;;;
  write (set_currentState DISPUTED) ;;;
  emit (DisputeRaised (msg_sender env)).

Definition adminResolution (_releaseToSeller : bool) : M state unit :=
  onlyAdmin ;;;
  c <~ read currentState ;;
  require (State_eqb c DISPUTED) "No active dispute" ;;;
  (if _releaseToSeller then
     deposit <~ read amount ;;
     fee <~ read adminFee ;;
     sellerAmount <~ checked_sub deposit fee ;;
     to <~ read seller ;;
     transfer to sellerAmount ;;;
     a <~ read admin ;;
     fee <~ read adminFee ;;
     transfer a fee
   else
     b <~ read buyer ;;
     all <~ balance ;;
     transfer b all) ;;;
  write (set_currentState COMPLETE).

Definition expireEscrow : M state unit :=
  t <~ read expiryTime ;;
  require (t <=? block_timestamp env) "Not expired yet" ;;;
  c <~ read currentState ;;
  require (State_eqb c AWAITING_DELIVERY) "Already resolved" ;;;
  write (set_currentState REFUNDED) ;;;
  b <~ read buyer ;;
  all <~ balance ;;
  transfer b all ;;;
  emit RefundIssued.

End Functions.

(** The state-changing entry points of the contract; the triggers of the
    specification are, in this order, buyerConfirm, sellerConfirm,
    buyerRefundRequest, raiseDispute, adminResolve and expire. *)
Inductive Call : Type :=
| ConfirmDelivery
| ConfirmPayment
| RequestRefund
| RaiseDispute
| AdminResolution (_releaseToSeller : bool)
| ExpireEscrow.

Definition body (receives : address -> bool) (env : Env) (c : Call)
  : M state unit :=
  match c with
  | ConfirmDelivery => confirmDelivery receives env
  | ConfirmPayment => confirmPayment receives env
  | RequestRefund => requestRefund receives env
  | RaiseDispute => raiseDispute env
  | AdminResolution b => adminResolution receives env b
  | ExpireEscrow => expireEscrow receives env
  end.

(** A transaction calling the contract. *)
Definition call (receives : address -> bool) (env : Env) (c : Call)
  : M state unit :=
  external_call (body receives env c).

(** A sequence of transactions; reverted ones leave the state as it was.
    All of them address the contract at the same address. *)
Fixpoint run (receives : address -> bool) (self : address)
  (txs : list (address * Z * Call)) (st : state) : state :=
  match txs with
  | [] => st
  | (sender, now, c) :: rest =>
      let env := {| msg_sender := sender; block_timestamp := now;
                    this := self |} in
      run receives self rest (snd (call receives env c st))
  end.

(** *** The transitions of the contract, as a table

    For a call [c] in the environment [env] on the storage [s]:
    [entitled] is the check of the caller, [timely] the check of the clock,
    [source_state] the state the call requires, [approved] whether the
    approvals let the call move the funds, [target] the state it moves to and
    [payout] the transfers it makes.  The functions above are compared with
    this table in [EscrowFacts]. *)

Definition is_party (env : Env) (s : storage) : bool :=
  (msg_sender env =? buyer s)%N || (msg_sender env =? seller s)%N.

Definition entitled (env : Env) (c : Call) (s : storage) : bool :=
  match c with
  | ConfirmDelivery | RequestRefund => (msg_sender env =? buyer s)%N
  | ConfirmPayment => (msg_sender env =? seller s)%N
  | RaiseDispute => is_party env s
  | AdminResolution _ => (msg_sender env =? admin s)%N
  | ExpireEscrow => true
  end.

Definition timely (env : Env) (c : Call) (s : storage) : bool :=
  match c with
  | ExpireEscrow => expiryTime s <=? block_timestamp env
  | AdminResolution _ => true
  | _ => block_timestamp env <? expiryTime s
  end.

Definition source_state (c : Call) : State :=
  match c with
  | AdminResolution _ => DISPUTED
  | _ => AWAITING_DELIVERY
  end.

Definition approved (c : Call) (s : storage) : bool :=
  match c with
  | ConfirmDelivery => negb (requireMultiSig s) || sellerApproved s
  | ConfirmPayment => requireMultiSig s && buyerApproved s
  | _ => true
  end.

Definition fires (env : Env) (c : Call) (s : storage) : bool :=
  entitled env c s && timely env c s
  && State_eqb (currentState s) (source_state c) && approved c s.

Definition target (c : Call) : State :=
  match c with
  | ConfirmDelivery | ConfirmPayment | AdminResolution _ => COMPLETE
  | RequestRefund | ExpireEscrow => REFUNDED
  | RaiseDispute => DISPUTED
  end.

(** The two transfers of a release and the transfer of a refund. *)
Definition release (receives : address -> bool) (self : address)
  (s : storage) (l : gmap address Z) : option (gmap address Z) :=
  match Ledger.transfer receives self (seller s)
          (amount s - adminFee s) l with
  | Some l1 => Ledger.transfer receives self (admin s) (adminFee s) l1
  | None => None
  end.

Definition refund (receives : address -> bool) (self : address)
  (s : storage) (l : gmap address Z) : option (gmap address Z) :=
  Ledger.transfer receives self (buyer s) (Ledger.balanceOf l self) l.

Definition payout (receives : address -> bool) (self : address)
  (s : storage) (c : Call) (l : gmap address Z) : option (gmap address Z) :=
  match c with
  | ConfirmDelivery | ConfirmPayment | AdminResolution true =>
      release receives self s l
  | RequestRefund | ExpireEscrow | AdminResolution false =>
      refund receives self s l
  | RaiseDispute => Some l
  end.

(** [v] counted for the account [a] when it is the account [b]. *)
Definition share (a b : address) (v : Z) : Z :=
  if decide (a = b) then v else 0.

(** The ledger [l'] is [l] after the deposit left the contract, the seller
    received the deposit less the fee and the admin received the fee. *)
Definition released (self : address) (s : storage) (l l' : gmap address Z)
  : Prop :=
  forall a, Ledger.balanceOf l' a
            = Ledger.balanceOf l a - share a self (amount s)
              + share a (seller s) (amount s - adminFee s)
              + share a (admin s) (adminFee s).

(** The ledger [l'] is [l] after all the contract held went to the buyer. *)
Definition refunded (self : address) (s : storage) (l l' : gmap address Z)
  : Prop :=
  forall a, Ledger.balanceOf l' a
            = Ledger.balanceOf l a - share a self (Ledger.balanceOf l self)
              + share a (buyer s) (Ledger.balanceOf l self).

(** The terms of an agreement: the fields no function assigns. *)
Definition same_terms (s s' : storage) : Prop :=
  admin s' = admin s /\ buyer s' = buyer s /\ seller s' = seller s /\
  expiryTime s' = expiryTime s /\ adminFee s' = adminFee s /\
  amount s' = amount s /\ requireMultiSig s' = requireMultiSig s.

(** *** The view function and the observations used below *)

(** [getDetails]: the storage without the fee. *)
Definition getDetails
  : M state (address * address * address * State * Z * Z
             * bool * bool * bool) :=
  a <~ read admin ;;
  b <~ read buyer ;;
  s <~ read seller ;;
  c <~ read currentState ;;
  v <~ read amount ;;
  t <~ read expiryTime ;;
  m <~ read requireMultiSig ;;
  ba <~ read buyerApproved ;;
  sa <~ read sellerApproved ;;
  ret (a, b, s, c, v, t, m, ba, sa).

(** The events of a payout, and their number in a log. *)
Definition is_payout (e : Event) : bool :=
  match e with
  | FundsReleased | RefundIssued => true
  | DisputeRaised _ | ResolutionApproved _ => false
  end.

Definition payouts (lg : list Event) : nat :=
  length (filter (fun e => is_payout e = true) lg).

(** The log agrees with the state: no payout event while the agreement is
    open, at most one afterwards, and none of the other kind. *)
Definition log_agrees (st : state) : Prop :=
  match currentState (store st) with
  | AWAITING_DELIVERY | DISPUTED => payouts (log st) = 0%nat
  | COMPLETE => (payouts (log st) <= 1)%nat /\ RefundIssued ∉ log st
  | REFUNDED => payouts (log st) = 1%nat /\ FundsReleased ∉ log st
  end.

(** The moves of [currentState] that the functions make. *)
Definition may_follow (before after : State) : bool :=
  match before, after with
  | AWAITING_DELIVERY, _ => true
  | DISPUTED, (DISPUTED | COMPLETE) => true
  | COMPLETE, COMPLETE => true
  | REFUNDED, REFUNDED => true
  | _, _ => false
  end.

(** *** A sample agreement

    A deposit of 1000 with a fee of 25 between the buyer 1 and the seller 2,
    with the admin 3, held by the contract at address 9 and expiring at
    time 100; [at_ sender now] is a call to it. *)
Definition sample (state_ : State) (multi : bool) : state :=
  {| store := {| admin := 3; buyer := 1; seller := 2; expiryTime := 100;
                 adminFee := 25; amount := 1000; currentState := state_;
                 requireMultiSig := multi;
                 buyerApproved := false; sellerApproved := false |};
     ledger := {[ 9%N := 1000 ]};
     log := [] |}.

Definition at_ (sender : address) (now : Z) : Env :=
  {| msg_sender := sender; block_timestamp := now; this := 9 |}.

End Escrow.

(** ** Contract [EscrowFactory] *)

Module EscrowFactory.

Inductive Event : Type :=
| EscrowCreated (escrowId : Z) (buyer seller escrowAddress : address)
| AdminChanged (newAdmin : address)
| FeeChanged (newPercentage : Z).

Record storage : Type := {
  admin : address;
  adminFeePercentage : Z;   (* basis points, 100 = 1% *)
  allEscrows : list address
}.

Record state : Type := {
  store : storage;
  ledger : gmap address Z;
  log : list Event
}.

Definition read {A} (f : storage -> A) : M state A :=
  fun st => (Ok (f (store st)), st).

Definition write (f : storage -> storage) : M state unit :=
  modify (fun st =>
    {| store := f (store st); ledger := ledger st; log := log st |}).

Definition emit (e : Event) : M state unit :=
  modify (fun st =>
    {| store := store st; ledger := ledger st; log := log st ++ [e] |}).

(** Value moved by the ledger on behalf of a call or of a creation. *)
Definition pay (from to : address) (v : Z) : M state unit :=
  fun st =>
    match Ledger.move from to v (ledger st) with
    | Some l' => (Ok tt, {| store := store st; ledger := l'; log := log st |})
    | None => (Err TransferFailed, st)
    end.

Definition set_admin (v : address) (s : storage) : storage :=
  {| admin := v; adminFeePercentage := adminFeePercentage s;
     allEscrows := allEscrows s |}.

Definition set_adminFeePercentage (v : Z) (s : storage) : storage :=
  {| admin := admin s; adminFeePercentage := v;
     allEscrows := allEscrows s |}.

Definition push_allEscrows (a : address) (s : storage) : storage :=
  {| admin := admin s; adminFeePercentage := adminFeePercentage s;
     allEscrows := allEscrows s ++ [a] |}.

(** [constructor]: the storage of a factory deployed by [sender]. *)
Definition constructor (sender : address) (_feePercentage : Z) : storage :=
  {| admin := sender; adminFeePercentage := _feePercentage;
     allEscrows := [] |}.

Section Functions.

Variable receives : address -> bool.

Variable env : Env.

(** [createEscrow], called with [msg.value = value].  [created] is the
    address the chain gives to the contract made by [new]; the function
    returns it, and the model returns the storage of that contract with it.
    The value arrives at the factory with the call and [new] forwards it. *)
Definition createEscrow (value : Z) (created : address) (_seller : address)
  (_expiryDays : Z) (_requireMultiSig : bool)
  : M state (address * Escrow.storage) :=
  pay (msg_sender env) (this env) value ;;;
  require (0 <? value) "Must send ETH to create escrow" ;;;
  a <~ read admin ;;
  pct <~ read adminFeePercentage ;;
  pay (this env) created value ;;;
  newEscrow <~ Escrow.constructor (block_timestamp env) value
                 (msg_sender env) _seller a _expiryDays _requireMultiSig pct ;;
  write (push_allEscrows created) ;;;
  all <~ read allEscrows ;;
  escrowId <~ checked_sub (Z.of_nat (length all)) 1 ;;
  emit (EscrowCreated escrowId (msg_sender env) _seller created) ;;;
  ret (created, newEscrow).

Definition changeAdmin (_newAdmin : address) : M state unit :=
  a <~ read admin ;;
  require (msg_sender env =? a)%N "Only admin" ;;;
  write (set_admin _newAdmin) ;;;
  emit (AdminChanged _newAdmin).

Definition setFeePercentage (_newPercentage : Z) : M state unit :=
  a <~ read admin ;;
  require (msg_sender env =? a)%N "Only admin" ;;;
  require (_newPercentage <=? 500) "Max 5% fee" ;;;
  write (set_adminFeePercentage _newPercentage) ;;;
  emit (FeeChanged _newPercentage).

Definition withdrawFees : M state unit :=
  a <~ read admin ;;
  fun st =>
    match Ledger.transfer receives (this env) a
            (Ledger.balanceOf (ledger st) (this env)) (ledger st) with
    | Some l' => (Ok tt, {| store := store st; ledger := l'; log := log st |})
    | None => (Err TransferFailed, st)
    end.

End Functions.

(** [getAllEscrows] *)
Definition getAllEscrows : M state (list address) := read allEscrows.

(** The state-changing entry points of the factory.  [CreateEscrow] carries
    [msg.value] and the address of the contract to be created. *)
Inductive Call : Type :=
| CreateEscrow (value : Z) (created _seller : address) (_expiryDays : Z)
    (_requireMultiSig : bool)
| ChangeAdmin (_newAdmin : address)
| SetFeePercentage (_newPercentage : Z)
| WithdrawFees.

Definition body (receives : address -> bool) (env : Env) (c : Call)
  : M state unit :=
  match c with
  | CreateEscrow value created _seller _expiryDays _requireMultiSig =>
      createEscrow env value created _seller _expiryDays _requireMultiSig ;;;
      ret tt
  | ChangeAdmin _newAdmin => changeAdmin env _newAdmin
  | SetFeePercentage _newPercentage => setFeePercentage env _newPercentage
  | WithdrawFees => withdrawFees receives env
  end.

(** A transaction calling the factory. *)
Definition call (receives : address -> bool) (env : Env) (c : Call)
  : M state unit :=
  external_call (body receives env c).

(** A sequence of transactions to the factory at the address [self]. *)
Fixpoint run (receives : address -> bool) (self : address)
  (txs : list (address * Z * Call)) (st : state) : state :=
  match txs with
  | [] => st
  | (sender, now, c) :: rest =>
      let env := {| msg_sender := sender; block_timestamp := now;
                    this := self |} in
      run receives self rest (snd (call receives env c st))
  end.

(** A transaction that is not sent by the factory and does not create a
    contract at the address of the factory. *)
Definition from_outside (self : address) (tx : address * Z * Call) : Prop :=
  fst (fst tx) <> self
  /\ match snd tx with
     | CreateEscrow _ created _ _ _ => created <> self
     | _ => True
     end.

(** Every [EscrowCreated] event of the log names, by its identifier, the
    place of its address in the list of agreements. *)
Definition log_indexes_list (st : state) : Prop :=
  forall escrowId b s a,
    EscrowCreated escrowId b s a ∈ log st ->
    0 <= escrowId
    /\ allEscrows (store st) !! Z.to_nat escrowId = Some a.

End EscrowFactory.

(** * Properties *)

(** ** The ledger *)

Module LedgerFacts.
Import Ledger.

Lemma balanceOf_insert (l : gmap address Z) a b v :
  balanceOf (<[a := v]> l) b = if decide (a = b) then v else balanceOf l b.
Proof.
  unfold balanceOf. rewrite lookup_insert.
  destruct (decide (a = b)); reflexivity.
Qed.

Lemma total_insert (l : gmap address Z) a v :
  total (<[a := v]> l) = total l - balanceOf l a + v.
Proof.
  unfold total, balanceOf.
  destruct (l !! a) as [x|] eqn:E; simpl.
  - rewrite <- (insert_delete_id l a x E) at 2.
    rewrite <- (insert_delete_eq l).
    rewrite !map_fold_insert_L;
      [lia | intros; lia | apply lookup_delete_eq
       | intros; lia | apply lookup_delete_eq].
  - rewrite map_fold_insert_L; [lia | intros; lia | assumption].
Qed.

Lemma total_credit l a v : total (credit a v l) = total l + v.
Proof. unfold credit. rewrite total_insert. lia. Qed.

Lemma total_debit l a v : total (debit a v l) = total l - v.
Proof. unfold debit. rewrite total_insert. lia. Qed.

Lemma balanceOf_credit l a v b :
  balanceOf (credit a v l) b
  = balanceOf l b + (if decide (b = a) then v else 0).
Proof.
  unfold credit. rewrite balanceOf_insert.
  destruct (decide (a = b)), (decide (b = a)); subst; try congruence; lia.
Qed.

Lemma balanceOf_debit l a v b :
  balanceOf (debit a v l) b
  = balanceOf l b - (if decide (b = a) then v else 0).
Proof.
  unfold debit. rewrite balanceOf_insert.
  destruct (decide (a = b)), (decide (b = a)); subst; try congruence; lia.
Qed.

(** A move conserves the sum of the balances. *)
Lemma move_total from to v l l' :
  move from to v l = Some l' -> total l' = total l.
Proof.
  unfold move. destruct (_ <? _); [discriminate|].
  intros [= <-]. rewrite total_credit, total_debit. lia.
Qed.

(** A move changes the balance of [from] and [to] by [v] and no other. *)
Lemma move_balanceOf from to v l l' :
  move from to v l = Some l' ->
  forall a, balanceOf l' a
            = balanceOf l a - (if decide (a = from) then v else 0)
                            + (if decide (a = to) then v else 0).
Proof.
  unfold move. destruct (_ <? _); [discriminate|].
  intros [= <-] a. rewrite balanceOf_credit, balanceOf_debit. reflexivity.
Qed.

Lemma move_Some from to v l :
  v <= balanceOf l from -> move from to v l = Some (credit to v (debit from v l)).
Proof.
  intros H. unfold move.
  destruct (Z.ltb_spec (balanceOf l from) v); [lia | reflexivity].
Qed.

(** A move of a non-negative value leaves no balance negative. *)
Lemma move_non_negative from to v l l' :
  0 <= v -> non_negative l -> move from to v l = Some l' -> non_negative l'.
Proof.
  intros Hv Hl Hm a.
  rewrite (move_balanceOf _ _ _ _ _ Hm).
  unfold move in Hm.
  destruct (Z.ltb_spec (balanceOf l from) v); [discriminate|].
  specialize (Hl a).
  destruct (decide (a = from)), (decide (a = to)); subst; lia.
Qed.

Lemma transfer_move receives from to v l l' :
  transfer receives from to v l = Some l' -> move from to v l = Some l'.
Proof. unfold transfer. destruct (receives to); [tauto | discriminate]. Qed.

End LedgerFacts.

(** ** Symbolic execution of the monad *)

Lemma run_bind_assoc {S A B C} (m : M S A) (f : A -> M S B) (g : B -> M S C) s :
  bind (bind m f) g s = bind m (fun x => bind (f x) g) s.
Proof. unfold bind. destruct (m s) as [[a|e] s']; reflexivity. Qed.

Lemma run_ret {S A B} (a : A) (k : A -> M S B) s : bind (ret a) k s = k a s.
Proof. reflexivity. Qed.

Lemma run_require {S B} c r (k : unit -> M S B) s :
  bind (require c r) k s = if c then k tt s else (Err (Require r), s).
Proof. destruct c; reflexivity. Qed.

Lemma run_checked_sub {S B} a b (k : Z -> M S B) s :
  bind (checked_sub a b) k s
  = if b <=? a then k (a - b) s else (Err Panic, s).
Proof. unfold checked_sub, bind. destruct (b <=? a); reflexivity. Qed.

Lemma run_checked_add {S B} a b (k : Z -> M S B) s :
  bind (checked_add a b) k s
  = if a + b <=? MAX_UINT256 then k (a + b) s else (Err Panic, s).
Proof. unfold checked_add, bind. destruct (_ <=? _); reflexivity. Qed.

Lemma run_checked_mul {S B} a b (k : Z -> M S B) s :
  bind (checked_mul a b) k s
  = if a * b <=? MAX_UINT256 then k (a * b) s else (Err Panic, s).
Proof. unfold checked_mul, bind. destruct (_ <=? _); reflexivity. Qed.

Module EscrowExec.
Import Escrow.

Lemma run_read {A B} (f : storage -> A) (k : A -> M state B) st :
  bind (read f) k st = k (f (store st)) st.
Proof. reflexivity. Qed.

Lemma run_write {B} f (k : unit -> M state B) st :
  bind (write f) k st
  = k tt {| store := f (store st); ledger := ledger st; log := log st |}.
Proof. reflexivity. Qed.

Lemma run_emit {B} e (k : unit -> M state B) st :
  bind (emit e) k st
  = k tt {| store := store st; ledger := ledger st; log := log st ++ [e] |}.
Proof. reflexivity. Qed.

Lemma run_balance {B} env (k : Z -> M state B) st :
  bind (balance env) k st = k (Ledger.balanceOf (ledger st) (this env)) st.
Proof. reflexivity. Qed.

Lemma run_transfer {B} receives env to v (k : unit -> M state B) st :
  bind (transfer receives env to v) k st
  = match Ledger.transfer receives (this env) to v (ledger st) with
    | Some l' => k tt {| store := store st; ledger := l'; log := log st |}
    | None => (Err TransferFailed, st)
    end.
Proof.
  unfold bind, transfer.
  destruct (Ledger.transfer _ _ _ _ _); reflexivity.
Qed.

Ltac proj :=
  cbn [store ledger log admin buyer seller expiryTime adminFee amount
       currentState requireMultiSig buyerApproved sellerApproved
       set_currentState set_buyerApproved set_sellerApproved
       msg_sender block_timestamp this fst snd] in *.

(** One step of execution at the head of the program; [prune] closes the
    branches that the hypotheses exclude. *)
Ltac exec_step prune :=
  first
  [ rewrite run_bind_assoc
  | rewrite run_ret
  | rewrite run_read
  | rewrite run_write
  | rewrite run_emit
  | rewrite run_balance
  | rewrite run_require;
    match goal with
    | |- context [if ?c then _ else (Err (Require _), _)] =>
        destruct c eqn:?; try solve [prune]
    end
  | rewrite run_checked_sub;
    match goal with
    | |- context [if ?c then _ else (Err Panic, _)] =>
        destruct c eqn:?; try solve [prune]
    end
  | rewrite run_transfer;
    match goal with
    | |- context [match ?c with Some _ => _ | None => (Err TransferFailed, _) end] =>
        destruct c eqn:?; try solve [prune]
    end
  | match goal with
    | |- context [bind (if ?c then _ else _) _ _] =>
        destruct c eqn:?; try solve [prune]
    | |- context [(if ?c then _ else _) _] =>
        destruct c eqn:?; try solve [prune]
    end
  | progress unfold _releaseFunds
  | progress unfold emit, write, modify, ret, transfer ];
  cbv beta iota; proj.

Ltac exec prune :=
  unfold call, external_call, body, confirmDelivery, confirmPayment,
    requestRefund, raiseDispute, adminResolution, expireEscrow,
    onlyParties, onlyAdmin, notExpired;
  cbv beta iota; proj;
  repeat exec_step prune.

End EscrowExec.


(** ** The contract [Escrow] *)

Module EscrowFacts.
Import Escrow EscrowExec LedgerFacts.

Lemma State_eqb_eq a b : State_eqb a b = true <-> a = b.
Proof. destruct a, b; simpl; split; congruence. Qed.

Lemma State_eqb_neq a b : State_eqb a b = false <-> a <> b.
Proof. destruct a, b; simpl; split; congruence. Qed.

(** Boolean tests of the hypotheses turned into propositions. *)
Ltac reflect_hyps :=
  repeat match goal with
  | H : (_ && _) = true |- _ => apply andb_true_iff in H; destruct H
  | H : (_ || _) = false |- _ => apply orb_false_iff in H; destruct H
  | H : (_ && _) = false |- _ => apply andb_false_iff in H; destruct H
  | H : (_ || _) = true |- _ => apply orb_true_iff in H; destruct H
  | H : negb _ = true |- _ => apply negb_true_iff in H
  | H : negb _ = false |- _ => apply negb_false_iff in H
  | H : (_ =? _)%N = true |- _ => apply N.eqb_eq in H
  | H : (_ =? _)%N = false |- _ => apply N.eqb_neq in H
  | H : (_ <? _) = true |- _ => apply Z.ltb_lt in H
  | H : (_ <? _) = false |- _ => apply Z.ltb_ge in H
  | H : (_ <=? _) = true |- _ => apply Z.leb_le in H
  | H : (_ <=? _) = false |- _ => apply Z.leb_gt in H
  | H : State_eqb _ _ = true |- _ => apply State_eqb_eq in H
  | H : State_eqb _ _ = false |- _ => apply State_eqb_neq in H
  end.

Ltac contra :=
  exfalso; unfold is_party in *; reflect_hyps;
  solve [ congruence | lia | intuition congruence | intuition lia ].

(** A reverted call leaves the state of entry. *)
Lemma call_Err receives env c st e st' :
  call receives env c st = (Err e, st') -> st' = st.
Proof.
  unfold call, external_call.
  destruct (body receives env c st) as [[[]|e'] mid]; congruence.
Qed.

(** In a terminal state every call reverts. *)
Lemma terminal_call_reverts receives env c st :
  terminal (currentState (store st)) = true ->
  exists e, call receives env c st = (Err e, st).
Proof.
  intros Ht.
  destruct c;
    exec ltac:(eauto; destruct (currentState (store st)); discriminate).
Qed.

(** No call changes the terms of the agreement. *)
Lemma call_same_terms receives env c st :
  same_terms (store st) (store (snd (call receives env c st))).
Proof.
  unfold same_terms.
  destruct c; exec ltac:(tauto); tauto.
Qed.

(** Every call conserves the sum of the balances. *)
Lemma call_total receives env c st :
  Ledger.total (ledger (snd (call receives env c st)))
  = Ledger.total (ledger st).
Proof.
  destruct c; exec ltac:(reflexivity);
    repeat match goal with
    | H : Ledger.transfer _ _ _ _ _ = Some _ |- _ =>
        apply transfer_move, move_total in H
    end; congruence.
Qed.

Ltac moves_non_negative :=
  repeat match goal with
  | H : Ledger.transfer _ _ _ _ _ = Some _ |- _ => apply transfer_move in H
  end;
  repeat match goal with
  | H : Ledger.move ?f ?t ?v ?l = Some ?l', Hl : Ledger.non_negative ?l |- _ =>
      lazymatch goal with
      | _ : Ledger.non_negative l' |- _ => fail
      | _ => assert (Ledger.non_negative l')
               by (apply (move_non_negative f t v l l');
                   [first [lia | apply Hl] | exact Hl | exact H])
      end
  end.

(** No call makes a balance negative. *)
Lemma call_non_negative receives env c st :
  0 <= adminFee (store st) ->
  Ledger.non_negative (ledger st) ->
  Ledger.non_negative (ledger (snd (call receives env c st))).
Proof.
  intros Hfee Hl.
  destruct c; exec ltac:(assumption); try assumption;
    reflect_hyps; moves_non_negative; assumption.
Qed.

(** A call that is not entitled, not timely or made in another state than
    the one it requires reverts. *)
Lemma call_guard_fails receives env c st :
  entitled env c (store st) && timely env c (store st)
  && State_eqb (currentState (store st)) (source_state c) = false ->
  exists e, call receives env c st = (Err e, st).
Proof.
  intros H.
  destruct c; cbn [entitled timely source_state] in H;
    exec ltac:(eauto); contra.
Qed.

(** In another state than the one the call requires, an entitled and timely
    call reverts with the message of the state check. *)
Lemma call_wrong_state receives env c st :
  entitled env c (store st) = true ->
  timely env c (store st) = true ->
  currentState (store st) <> source_state c ->
  exists reason,
    call receives env c st = (Err (Require reason), st)
    /\ reason_kind reason = InvalidState.
Proof.
  intros He Ht Hs.
  destruct c; cbn [entitled timely source_state] in *;
    exec ltac:(eauto; contra); contra.
Qed.

(** A call whose caller is not entitled or whose time guard fails reverts
    with the error of the first guard that fails. *)
Lemma call_guard_error receives env c st :
  entitled env c (store st) && timely env c (store st) = false ->
  exists reason,
    call receives env c st = (Err (Require reason), st)
    /\ (reason_kind reason = Unauthorized
        \/ reason_kind reason = Expired
        \/ reason_kind reason = NotYetExpired).
Proof.
  intros H.
  destruct c; cbn [entitled timely] in H;
    exec ltac:(first
      [ solve [eexists; split; [reflexivity | vm_compute; tauto]]
      | contra ]);
    contra.
Qed.

(** An entitled and timely call in the state it requires, without the
    approvals that let it move the funds, records the approval of its caller
    (in dual-approval mode) and leaves the state and the ledger. *)
Lemma call_pending receives env c st :
  entitled env c (store st) = true ->
  timely env c (store st) = true ->
  currentState (store st) = source_state c ->
  approved c (store st) = false ->
  exists st',
    call receives env c st = (Ok tt, st')
    /\ ledger st' = ledger st
    /\ currentState (store st') = currentState (store st)
    /\ buyerApproved (store st')
       = match c with
         | ConfirmDelivery => true
         | _ => buyerApproved (store st)
         end
    /\ sellerApproved (store st')
       = match c with
         | ConfirmPayment =>
             requireMultiSig (store st) || sellerApproved (store st)
         | _ => sellerApproved (store st)
         end.
Proof.
  intros He Ht Hs Ha.
  destruct c; cbn [entitled timely source_state approved] in *;
    try discriminate;
    exec ltac:(contra); try contra.
  all: eexists; split; [reflexivity|]; proj; repeat split; try congruence.
  all: repeat match goal with
       | H : _ = _ |- _ => rewrite H
       end; reflexivity.
Qed.

(** A call that passes its guards with the approvals it needs makes its
    payout and moves to its target state, or reverts with the failure of the
    transfer. *)
Lemma call_fires receives env c st :
  fires env c (store st) = true ->
  adminFee (store st) <= amount (store st) ->
  match payout receives (this env) (store st) c (ledger st) with
  | Some l' =>
      exists st', call receives env c st = (Ok tt, st')
                  /\ ledger st' = l'
                  /\ currentState (store st') = target c
  | None => call receives env c st = (Err TransferFailed, st)
  end.
Proof.
  unfold fires. intros Hf Hfee.
  destruct c; cbn [entitled timely source_state approved target payout] in *;
    unfold release, refund;
    exec ltac:(contra); try contra.
  all: repeat match goal with
       | H : Ledger.transfer _ _ _ _ _ = _ |- _ => rewrite H
       end; eauto.
Qed.

(** *** The payouts *)

Lemma release_released receives self s l l' :
  release receives self s l = Some l' -> released self s l l'.
Proof.
  unfold release, released, share.
  destruct (Ledger.transfer receives self (seller s) _ l) as [l1|] eqn:H1;
    [|discriminate].
  intros H2 a.
  apply transfer_move in H1, H2.
  rewrite (move_balanceOf _ _ _ _ _ H2), (move_balanceOf _ _ _ _ _ H1).
  repeat destruct (decide _); lia.
Qed.

Lemma refund_refunded receives self s l l' :
  refund receives self s l = Some l' -> refunded self s l l'.
Proof.
  unfold refund, refunded, share. intros H a.
  apply transfer_move in H.
  rewrite (move_balanceOf _ _ _ _ _ H).
  repeat destruct (decide _); lia.
Qed.

(** A release goes through when the seller and the admin accept payments
    and the contract holds the deposit. *)
Lemma release_Some receives self s l :
  receives (seller s) = true ->
  receives (admin s) = true ->
  0 <= adminFee s <= amount s ->
  amount s <= Ledger.balanceOf l self ->
  exists l', release receives self s l = Some l'.
Proof.
  intros Hs Ha Hfee Hbal.
  unfold release, Ledger.transfer. rewrite Hs, Ha.
  rewrite move_Some by lia.
  rewrite move_Some; [eauto|].
  rewrite balanceOf_credit, balanceOf_debit.
  repeat destruct (decide _); try congruence; lia.
Qed.

Lemma refund_Some receives self s l :
  receives (buyer s) = true ->
  exists l', refund receives self s l = Some l'.
Proof.
  intros Hb. unfold refund, Ledger.transfer. rewrite Hb.
  rewrite move_Some by lia. eauto.
Qed.

(** *** Sequences of calls *)

Lemma run_cons receives self sender now c rest st :
  run receives self ((sender, now, c) :: rest) st
  = run receives self rest
      (snd (call receives
              {| msg_sender := sender; block_timestamp := now; this := self |}
              c st)).
Proof. reflexivity. Qed.

Lemma same_terms_refl s : same_terms s s.
Proof. unfold same_terms. tauto. Qed.

Lemma same_terms_trans s1 s2 s3 :
  same_terms s1 s2 -> same_terms s2 s3 -> same_terms s1 s3.
Proof. unfold same_terms. intuition congruence. Qed.

Lemma run_same_terms receives self txs st :
  same_terms (store st) (store (run receives self txs st)).
Proof.
  revert st. induction txs as [|[[sender now] c] rest IH]; intros st.
  - apply same_terms_refl.
  - rewrite run_cons.
    eapply same_terms_trans; [apply call_same_terms | apply IH].
Qed.

Lemma run_total receives self txs st :
  Ledger.total (ledger (run receives self txs st)) = Ledger.total (ledger st).
Proof.
  revert st. induction txs as [|[[sender now] c] rest IH]; intros st.
  - reflexivity.
  - rewrite run_cons, IH. apply call_total.
Qed.

Lemma run_non_negative receives self txs st :
  0 <= adminFee (store st) ->
  Ledger.non_negative (ledger st) ->
  Ledger.non_negative (ledger (run receives self txs st)).
Proof.
  revert st. induction txs as [|[[sender now] c] rest IH]; intros st Hfee Hl.
  - assumption.
  - rewrite run_cons. apply IH.
    + pose proof (call_same_terms receives
        {| msg_sender := sender; block_timestamp := now; this := self |} c st)
        as Hsame.
      unfold same_terms in Hsame. lia.
    + apply call_non_negative; assumption.
Qed.

Lemma run_terminal receives self txs st :
  terminal (currentState (store st)) = true ->
  run receives self txs st = st.
Proof.
  intros Ht. induction txs as [|[[sender now] c] rest IH].
  - reflexivity.
  - rewrite run_cons.
    destruct (terminal_call_reverts receives
      {| msg_sender := sender; block_timestamp := now; this := self |} c st Ht)
      as [e ->].
    exact IH.
Qed.

(** *** The ledger effect of a call *)

(** Every call either leaves the ledger as it was or makes the payout of its
    row of the table and moves to the target state of that row. *)
Lemma call_moves receives env c st :
  let st' := snd (call receives env c st) in
  ledger st' = ledger st
  \/ (payout receives (this env) (store st) c (ledger st) = Some (ledger st')
      /\ currentState (store st') = target c
      /\ c <> RaiseDispute).
Proof.
  destruct c; cbn [payout target]; unfold release, refund;
    exec ltac:(left; reflexivity); try (left; reflexivity).
  all: right; repeat match goal with
       | H : Ledger.transfer _ _ _ _ _ = _ |- _ => rewrite H
       end; repeat split; discriminate.
Qed.

(** While the agreement is open the contract holds the deposit. *)
Lemma call_custody receives env c st :
  let st' := snd (call receives env c st) in
  Ledger.balanceOf (ledger st) (this env) = amount (store st) ->
  terminal (currentState (store st')) = false ->
  Ledger.balanceOf (ledger st') (this env) = amount (store st').
Proof.
  intros st' Hc Ht.
  pose proof (call_same_terms receives env c st) as Hsame.
  unfold same_terms in Hsame. fold st' in Hsame.
  destruct (call_moves receives env c st) as [Hl | (_ & Hs & Hc')];
    fold st' in Hl || fold st' in Hs.
  - rewrite Hl. lia.
  - rewrite Hs in Ht. destruct c; simpl in Ht; congruence.
Qed.

Lemma run_custody receives self txs st :
  Ledger.balanceOf (ledger st) self = amount (store st) ->
  terminal (currentState (store (run receives self txs st))) = false ->
  Ledger.balanceOf (ledger (run receives self txs st)) self
  = amount (store (run receives self txs st)).
Proof.
  revert st. induction txs as [|[[sender now] c] rest IH]; intros st Hc Ht.
  - exact Hc.
  - rewrite run_cons in *.
    set (env := {| msg_sender := sender; block_timestamp := now;
                   this := self |}) in *.
    destruct (terminal (currentState (store (snd (call receives env c st)))))
      eqn:Hmid.
    + rewrite (run_terminal _ _ _ _ Hmid) in Ht. congruence.
    + apply IH; [|exact Ht].
      apply (call_custody receives env c st); assumption.
Qed.

End EscrowFacts.

(** * The claims about an agreement *)

Module Agreement.
Import Escrow EscrowExec LedgerFacts EscrowFacts.

(** C1, as stated, does not hold: a trigger on a terminal state does not
    always fail with InvalidState.  On a Complete agreement, the buyer's
    confirmDelivery at the expiry time fails with the message of the expiry
    guard, which runs before the state check. *)
Lemma terminal_trigger_other_error :
  ~ (forall receives env c st,
       terminal (currentState (store st)) = true ->
       exists e, call receives env c st = (Err e, st)
                 /\ error_kind e = InvalidState).
Proof.
  intros H.
  destruct (H (fun _ => true) (at_ 1 100) ConfirmDelivery
              (sample COMPLETE false) eq_refl) as (e & Hcall & Hkind).
  vm_compute in Hcall.
  injection Hcall as <-. vm_compute in Hkind. discriminate.
Qed.

(** C1, amended: after any history, once the agreement is in a terminal
    state every later sequence of calls leaves the whole state, hence the
    terminal state reached and all balances, as it is; every trigger fails.
    It fails with InvalidState when its caller is entitled and its time
    guard holds; otherwise the guard that fails first gives its own error
    (Unauthorized, Expired or not yet expired). *)
Theorem terminal_state_is_final receives self history st0 :
  let st := run receives self history st0 in
  terminal (currentState (store st)) = true ->
  (forall txs, run receives self txs st = st)
  /\ (forall env c,
        exists e, call receives env c st = (Err e, st)
                  /\ (entitled env c (store st) && timely env c (store st)
                      = true ->
                      error_kind e = InvalidState)
                  /\ (entitled env c (store st) && timely env c (store st)
                      = false ->
                      error_kind e = Unauthorized
                      \/ error_kind e = Expired
                      \/ error_kind e = NotYetExpired)).
Proof.
  intros st Ht. split.
  - intros txs. apply run_terminal. exact Ht.
  - intros env c.
    destruct (terminal_call_reverts receives env c st Ht) as [e He].
    exists e. split; [exact He|]. split.
    + intros Hguard. apply andb_true_iff in Hguard as [Hent Htime].
      destruct (call_wrong_state receives env c st Hent Htime)
        as (reason & Hcall & Hkind).
      * destruct (currentState (store st)), c; simpl in *; congruence.
      * rewrite He in Hcall. injection Hcall as ->. exact Hkind.
    + intros Hguard.
      destruct (call_guard_error receives env c st Hguard)
        as (reason & Hcall & Hkind).
      rewrite He in Hcall. injection Hcall as ->. exact Hkind.
Qed.

Lemma terminal_state_is_final_witness :
  let st := run (fun _ => true) 9 [(1%N, 5, ConfirmDelivery)]
              (sample AWAITING_DELIVERY false) in
  currentState (store st) = COMPLETE
  /\ run (fun _ => true) 9
       [(1%N, 6, RequestRefund); (7%N, 100, ExpireEscrow)] st = st
  /\ exists e, call (fun _ => true) (at_ 7 100) ExpireEscrow st = (Err e, st)
               /\ error_kind e = InvalidState.
Proof.
  intros st. split; [reflexivity|].
  destruct (terminal_state_is_final (fun _ => true) 9
              [(1%N, 5, ConfirmDelivery)] (sample AWAITING_DELIVERY false)
              eq_refl) as [Hrun Hcall].
  split; [apply Hrun|].
  destruct (Hcall (at_ 7 100) ExpireEscrow) as (e & He & Hkind & _).
  exists e. split; [exact He | apply Hkind; reflexivity].
Defined.

(** What a call reaches: it leaves the state and the ledger, or opens a
    dispute and leaves the ledger, or leaves the state its row of the table
    requires for the target state of the row and makes the payout of the
    row. *)
Lemma call_reaches receives env c st :
  let st' := snd (call receives env c st) in
  (currentState (store st') = currentState (store st)
   /\ ledger st' = ledger st)
  \/ (currentState (store st') = DISPUTED
      /\ currentState (store st) = AWAITING_DELIVERY
      /\ ledger st' = ledger st)
  \/ (currentState (store st) = source_state c
      /\ currentState (store st') = target c
      /\ c <> RaiseDispute
      /\ payout receives (this env) (store st) c (ledger st)
         = Some (ledger st')).
Proof.
  destruct c; cbn [payout target source_state]; unfold release, refund;
    exec ltac:(left; split; reflexivity); try (left; split; reflexivity);
    reflect_hyps.
  all: try (right; left; repeat split; assumption).
  all: right; right;
    repeat match goal with
    | H : Ledger.transfer _ _ _ _ _ = _ |- _ => rewrite H
    end; repeat split; first [assumption | discriminate | reflexivity].
Qed.

(** C2, as stated, does not hold: reaching Complete does not always move the
    deposit less the fee to the seller and the fee to the admin.  The admin
    resolving a dispute for the buyer ends in Complete with the whole balance
    paid to the buyer and nothing to the seller. *)
Lemma complete_without_seller_payout :
  ~ (forall receives env c st st',
       call receives env c st = (Ok tt, st') ->
       currentState (store st) <> COMPLETE ->
       currentState (store st') = COMPLETE ->
       released (this env) (store st) (ledger st) (ledger st')).
Proof.
  intros H.
  pose (st := sample DISPUTED false).
  pose (st' := snd (call (fun _ => true) (at_ 3 5) (AdminResolution false) st)).
  assert (Hcall : call (fun _ => true) (at_ 3 5) (AdminResolution false) st
                  = (Ok tt, st')) by reflexivity.
  specialize (H _ _ _ _ _ Hcall).
  assert (Hrel : released 9 (store st) (ledger st) (ledger st')).
  { apply H; [discriminate | reflexivity]. }
  specialize (Hrel 2%N). vm_compute in Hrel. discriminate.
Qed.

(** C2, amended: every call, and so every sequence of calls, conserves the
    sum of all balances and leaves no balance negative.  A call that reaches
    Complete, unless it is adminResolve(false), has moved exactly the deposit
    less the fee to the seller and the fee to the admin; a call that reaches
    Refunded, and adminResolve(false) reaching Complete, has moved all the
    contract holds, which is the full deposit when the contract holds just
    the deposit, to the buyer.  A call that leaves the state or opens a
    dispute moves nothing. *)
Theorem custody_conserved receives self txs st :
  0 <= adminFee (store st) ->
  Ledger.non_negative (ledger st) ->
  (Ledger.total (ledger (run receives self txs st)) = Ledger.total (ledger st)
   /\ Ledger.non_negative (ledger (run receives self txs st)))
  /\ forall env c,
       let st' := snd (call receives env c st) in
       let paid_back :=
         refunded (this env) (store st) (ledger st) (ledger st')
         /\ (Ledger.balanceOf (ledger st) (this env) = amount (store st) ->
             forall a,
               Ledger.balanceOf (ledger st') a
               = Ledger.balanceOf (ledger st) a
                 - share a (this env) (amount (store st))
                 + share a (buyer (store st)) (amount (store st))) in
       Ledger.total (ledger st') = Ledger.total (ledger st)
       /\ Ledger.non_negative (ledger st')
       /\ (currentState (store st) <> COMPLETE ->
           currentState (store st') = COMPLETE ->
           match c with
           | AdminResolution false => paid_back
           | _ => released (this env) (store st) (ledger st) (ledger st')
           end)
       /\ (currentState (store st) <> REFUNDED ->
           currentState (store st') = REFUNDED ->
           paid_back)
       /\ (currentState (store st') = currentState (store st)
           \/ currentState (store st') = DISPUTED ->
           ledger st' = ledger st)
       /\ (ledger st' = ledger st
           \/ (currentState (store st') = target c
               /\ match c with
                  | ConfirmDelivery | ConfirmPayment | AdminResolution true =>
                      released (this env) (store st) (ledger st) (ledger st')
                  | RequestRefund | ExpireEscrow | AdminResolution false =>
                      paid_back
                  | RaiseDispute => False
                  end)).
Proof.
  intros Hfee Hl. split.
  - split; [apply run_total | apply run_non_negative; assumption].
  - intros env c st' paid_back.
    split; [apply call_total|].
    split; [apply call_non_negative; assumption|].
    assert (Hback :
      refund receives (this env) (store st) (ledger st) = Some (ledger st') ->
      paid_back).
    { intros Hpay. apply refund_refunded in Hpay. split; [exact Hpay|].
      intros Hc' a. rewrite (Hpay a), Hc'. reflexivity. }
    destruct (call_reaches receives env c st)
      as [[Hs Hsame] | [(Hs & Hs0 & Hsame) | (Hs0 & Hs & Hc & Hpay)]];
      fold st' in Hs, Hsame || fold st' in Hs, Hpay.
    + repeat split; try (intros; congruence); auto.
    + repeat split; try (intros; congruence); auto.
    + split; [|split; [|split]].
      * intros _ Hcomplete. rewrite Hs in Hcomplete.
        destruct c as [ | | | | [|] | ]; try discriminate;
          first [eapply release_released; exact Hpay | apply Hback, Hpay].
      * intros _ Hrefunded. rewrite Hs in Hrefunded.
        destruct c as [ | | | | [|] | ]; try discriminate;
          apply Hback, Hpay.
      * intros [Heq | Hd].
        -- exfalso. rewrite Hs, Hs0 in Heq.
           destruct c; discriminate.
        -- exfalso. rewrite Hs in Hd.
           destruct c; try discriminate. congruence.
      * right. split; [exact Hs|].
        destruct c as [ | | | | [|] | ]; try congruence;
          first [eapply release_released; exact Hpay | apply Hback, Hpay].
Qed.

(** The buyer's confirmation on the sample agreement pays the seller 975 and
    the admin 25; the admin's resolution for the buyer pays the buyer 1000. *)
Lemma custody_conserved_witness :
  let st := sample AWAITING_DELIVERY false in
  let st' := snd (call (fun _ => true) (at_ 1 5) ConfirmDelivery st) in
  Ledger.total (ledger st') = Ledger.total (ledger st)
  /\ Ledger.non_negative (ledger st')
  /\ currentState (store st') = COMPLETE
  /\ Ledger.balanceOf (ledger st') 2 = Ledger.balanceOf (ledger st) 2 + 975
  /\ Ledger.balanceOf (ledger st') 3 = Ledger.balanceOf (ledger st) 3 + 25
  /\ Ledger.balanceOf (ledger st') 9 = Ledger.balanceOf (ledger st) 9 - 1000.
Proof.
  intros st st'.
  assert (Hfee : 0 <= adminFee (store st)) by (vm_compute; discriminate).
  assert (Hl : Ledger.non_negative (ledger st)).
  { intros a. unfold Ledger.balanceOf, st, sample, ledger.
    destruct (decide (a = 9%N)) as [->|Hne].
    - rewrite lookup_singleton_eq. simpl. lia.
    - rewrite lookup_singleton_ne by congruence. simpl. lia. }
  destruct (custody_conserved (fun _ => true) 9 [] st Hfee Hl) as [_ H].
  destruct (H (at_ 1 5) ConfirmDelivery) as (Ht & Hn & Hrel & _).
  assert (Hpaid : released 9 (store st) (ledger st) (ledger st')).
  { apply Hrel; [discriminate | reflexivity]. }
  split; [exact Ht|]. split; [exact Hn|]. split; [reflexivity|].
  rewrite (Hpaid 2%N), (Hpaid 3%N), (Hpaid 9%N).
  repeat split; vm_compute; reflexivity.
Defined.

(** C4: a call that reverts leaves the whole state as it was at entry; and
    when a balance-affecting trigger passes its guards and a transfer of its
    payout fails, the call fails with TransferFailed and the agreement is in
    its state of entry: neither the state written before the transfer nor an
    approval, an event or a first transfer of the payout remains. *)
Theorem transfer_failure_aborts receives env c st :
  (forall e st', call receives env c st = (Err e, st') -> st' = st)
  /\ (fires env c (store st) = true ->
      adminFee (store st) <= amount (store st) ->
      payout receives (this env) (store st) c (ledger st) = None ->
      call receives env c st = (Err TransferFailed, st)
      /\ error_kind TransferFailed = TransferFailure).
Proof.
  split.
  - intros e st'. apply call_Err.
  - intros Hf Hfee Hp.
    pose proof (call_fires receives env c st Hf Hfee) as H.
    rewrite Hp in H. split; [exact H | reflexivity].
Qed.

(** The admin 3 refuses payments: the release to the seller 2 goes through
    and the payment of the fee fails. *)
Lemma transfer_failure_aborts_witness :
  let receives := fun a : address => negb (a =? 3)%N in
  let st := sample AWAITING_DELIVERY false in
  currentState (store (snd (body receives (at_ 1 5) ConfirmDelivery st)))
  = COMPLETE
  /\ call receives (at_ 1 5) ConfirmDelivery st = (Err TransferFailed, st)
  /\ error_kind TransferFailed = TransferFailure.
Proof.
  split; [reflexivity|].
  apply (transfer_failure_aborts (fun a : address => negb (a =? 3)%N)
           (at_ 1 5) ConfirmDelivery (sample AWAITING_DELIVERY false)).
  - reflexivity.
  - vm_compute. discriminate.
  - reflexivity.
Defined.

(** C10: in single-approval mode the seller's confirmPayment, before the
    expiry and while the agreement awaits resolution, returns without an
    error and leaves the whole state (the agreement's state, both approval
    flags, the ledger, the event log) as it was. *)
Theorem single_approval_confirmPayment_is_noop receives env st :
  requireMultiSig (store st) = false ->
  currentState (store st) = AWAITING_DELIVERY ->
  msg_sender env = seller (store st) ->
  block_timestamp env < expiryTime (store st) ->
  call receives env ConfirmPayment st = (Ok tt, st).
Proof.
  intros Hm Hs Hsender Hnow.
  exec ltac:(contra); try contra.
  reflexivity.
Qed.

Lemma single_approval_confirmPayment_is_noop_witness :
  call (fun _ => true) (at_ 2 5) ConfirmPayment (sample AWAITING_DELIVERY false)
  = (Ok tt, sample AWAITING_DELIVERY false).
Proof.
  apply (single_approval_confirmPayment_is_noop (fun _ => true) (at_ 2 5)
           (sample AWAITING_DELIVERY false)).
  - reflexivity.
  - reflexivity.
  - reflexivity.
  - simpl. lia.
Defined.

(** C7, as stated, does not hold for every agreement: [expireEscrow] pays
    the buyer with [transfer], and when the buyer's account refuses the
    payment the call reverts and the agreement still awaits resolution. *)
Lemma expire_with_refusing_buyer :
  ~ (forall receives env st,
       currentState (store st) = AWAITING_DELIVERY ->
       expiryTime (store st) <= block_timestamp env ->
       exists st',
         call receives env ExpireEscrow st = (Ok tt, st')
         /\ currentState (store st') = REFUNDED).
Proof.
  intros H.
  destruct (H (fun a => negb (a =? 1)%N) (at_ 7 100)
              (sample AWAITING_DELIVERY false) eq_refl)
    as (st' & Hcall & _).
  - simpl. lia.
  - vm_compute in Hcall. discriminate.
Qed.

(** C7, amended: on an agreement awaiting resolution, [expireEscrow] called
    by anyone at or after the expiry time pays the buyer all the contract
    holds, which is the full deposit when the contract holds just the
    deposit, moves to Refunded and logs RefundIssued, provided the buyer's
    account accepts the payment; when it refuses, the call fails with
    TransferFailed and changes nothing.  Called before the expiry time it
    fails with the message Not expired yet and changes nothing. *)
Theorem expire_refunds_buyer receives env st :
  currentState (store st) = AWAITING_DELIVERY ->
  (expiryTime (store st) <= block_timestamp env ->
   (receives (buyer (store st)) = true ->
    exists st',
      call receives env ExpireEscrow st = (Ok tt, st')
      /\ store st' = set_currentState REFUNDED (store st)
      /\ log st' = log st ++ [RefundIssued]
      /\ refunded (this env) (store st) (ledger st) (ledger st')
      /\ (Ledger.balanceOf (ledger st) (this env) = amount (store st) ->
          forall a,
            Ledger.balanceOf (ledger st') a
            = Ledger.balanceOf (ledger st) a
              - share a (this env) (amount (store st))
              + share a (buyer (store st)) (amount (store st))))
   /\ (receives (buyer (store st)) = false ->
       call receives env ExpireEscrow st = (Err TransferFailed, st)
       /\ error_kind TransferFailed = TransferFailure))
  /\ (block_timestamp env < expiryTime (store st) ->
      call receives env ExpireEscrow st
      = (Err (Require "Not expired yet"), st)
      /\ error_kind (Require "Not expired yet") = NotYetExpired).
Proof.
  intros Hs. split; [intros Hnow; split|].
  - intros Hb.
    destruct (refund_Some receives (this env) (store st) (ledger st) Hb)
      as [l' Hl'].
    pose proof (refund_refunded _ _ _ _ _ Hl') as Hr.
    unfold refund in Hl'.
    exec ltac:(contra); try contra; try congruence.
    eexists. split; [reflexivity|]. proj.
    replace g with l' by congruence.
    split; [reflexivity|]. split; [reflexivity|]. split; [exact Hr|].
    intros Hc a. rewrite (Hr a), Hc. reflexivity.
  - intros Hb. split; [|reflexivity].
    exec ltac:(contra); try contra.
    + unfold Ledger.transfer in *. rewrite Hb in *. discriminate.
    + reflexivity.
  - intros Hnow. split; [|reflexivity].
    exec ltac:(contra); try contra. reflexivity.
Qed.

Lemma expire_refunds_buyer_witness :
  let st := sample AWAITING_DELIVERY true in
  (exists st',
     call (fun _ => true) (at_ 7 100) ExpireEscrow st = (Ok tt, st')
     /\ currentState (store st') = REFUNDED
     /\ Ledger.balanceOf (ledger st') 1 = Ledger.balanceOf (ledger st) 1 + 1000
     /\ Ledger.balanceOf (ledger st') 9 = 0)
  /\ call (fun a => negb (a =? 1)%N) (at_ 7 100) ExpireEscrow st
     = (Err TransferFailed, st)
  /\ call (fun _ => true) (at_ 7 99) ExpireEscrow st
     = (Err (Require "Not expired yet"), st).
Proof.
  intros st.
  assert (Hnow : expiryTime (store st) <= block_timestamp (at_ 7 100))
    by (simpl; lia).
  destruct (expire_refunds_buyer (fun _ => true) (at_ 7 100) st eq_refl)
    as [Hafter _].
  destruct (expire_refunds_buyer (fun a => negb (a =? 1)%N) (at_ 7 100) st
              eq_refl) as [Hrefused _].
  destruct (expire_refunds_buyer (fun _ => true) (at_ 7 99) st eq_refl)
    as [_ Hbefore].
  split; [|split].
  - destruct (proj1 (Hafter Hnow) eq_refl)
      as (st' & Hcall & Hstore & _ & _ & Hbal).
    exists st'. split; [exact Hcall|].
    split; [rewrite Hstore; reflexivity|].
    rewrite (Hbal eq_refl 1%N), (Hbal eq_refl 9%N).
    split; vm_compute; reflexivity.
  - apply (proj2 (Hrefused Hnow)). reflexivity.
  - apply Hbefore. simpl. lia.
Defined.

(** The second confirmation of a dual-approval agreement. *)
Lemma second_confirmation receives env c st :
  requireMultiSig (store st) = true ->
  currentState (store st) = AWAITING_DELIVERY ->
  block_timestamp env < expiryTime (store st) ->
  (c = ConfirmDelivery /\ msg_sender env = buyer (store st)
     /\ sellerApproved (store st) = true
   \/ c = ConfirmPayment /\ msg_sender env = seller (store st)
     /\ buyerApproved (store st) = true) ->
  receives (seller (store st)) = true ->
  receives (admin (store st)) = true ->
  0 <= adminFee (store st) <= amount (store st) ->
  amount (store st) <= Ledger.balanceOf (ledger st) (this env) ->
  exists st',
    call receives env c st = (Ok tt, st')
    /\ currentState (store st') = COMPLETE
    /\ buyerApproved (store st') = true
    /\ sellerApproved (store st') = true
    /\ released (this env) (store st) (ledger st) (ledger st')
    /\ log st' = log st ++ [ResolutionApproved (msg_sender env); FundsReleased].
Proof.
  intros Hm Hs Hnow Hc Hrs Hra Hfee Hbal.
  destruct (release_Some receives (this env) (store st) (ledger st)
              Hrs Hra Hfee Hbal) as [l' Hl'].
  pose proof (release_released _ _ _ _ _ Hl') as Hrel.
  unfold release in Hl'.
  destruct Hc as [(-> & Hsender & Hother) | (-> & Hsender & Hother)].
  all: exec ltac:(contra); try contra; try congruence.
  all: try (rewrite Heqo in Hl'; congruence).
  all: eexists; split; [reflexivity|]; proj.
  all: rewrite Heqo in Hl'; replace g0 with l' by congruence.
  all: rewrite <- !app_assoc; simpl; repeat split; try assumption.
Qed.

(** The first confirmation of a dual-approval agreement. *)
Lemma first_confirmation receives env c st :
  requireMultiSig (store st) = true ->
  currentState (store st) = AWAITING_DELIVERY ->
  block_timestamp env < expiryTime (store st) ->
  (c = ConfirmDelivery /\ msg_sender env = buyer (store st)
     /\ sellerApproved (store st) = false
   \/ c = ConfirmPayment /\ msg_sender env = seller (store st)
     /\ buyerApproved (store st) = false) ->
  exists st',
    call receives env c st = (Ok tt, st')
    /\ currentState (store st') = AWAITING_DELIVERY
    /\ ledger st' = ledger st
    /\ buyerApproved (store st')
       = match c with
         | ConfirmDelivery => true
         | _ => buyerApproved (store st)
         end
    /\ sellerApproved (store st')
       = match c with
         | ConfirmPayment => true
         | _ => sellerApproved (store st)
         end
    /\ same_terms (store st) (store st')
    /\ log st' = log st ++ [ResolutionApproved (msg_sender env)].
Proof.
  intros Hm Hs Hnow Hc.
  destruct Hc as [(-> & Hsender & Hother) | (-> & Hsender & Hother)].
  all: exec ltac:(contra); try contra; try congruence.
  all: eexists; split; [reflexivity|]; proj.
  all: unfold same_terms; proj; repeat split; assumption.
Qed.

(** A confirmation on a dual-approval agreement changes neither the state
    nor the ledger unless both approvals are set when it returns. *)
Lemma confirmation_gated receives env c st :
  requireMultiSig (store st) = true ->
  c = ConfirmDelivery \/ c = ConfirmPayment ->
  let st' := snd (call receives env c st) in
  (buyerApproved (store st') = true /\ sellerApproved (store st') = true)
  \/ (currentState (store st') = currentState (store st)
      /\ ledger st' = ledger st).
Proof.
  intros Hm [-> | ->]; exec ltac:(right; split; reflexivity);
    try contra; try (right; split; reflexivity);
    left; split; first [reflexivity | assumption].
Qed.

Lemma released_same_terms self s s' l l' :
  same_terms s s' -> released self s' l l' -> released self s l l'.
Proof.
  unfold same_terms, released.
  intros (Ha & _ & Hs & _ & Hf & Hamt & _) H a.
  rewrite (H a), Ha, Hs, Hf, Hamt. reflexivity.
Qed.

(** The second confirmation, whatever the payees do: it reverts with a panic
    when the fee exceeds the deposit and with the failure of the transfer
    when the release cannot be paid, and leaves the state of entry; otherwise
    it records the approval, makes the release and moves to COMPLETE. *)
Lemma second_confirmation_outcome receives env c st :
  requireMultiSig (store st) = true ->
  currentState (store st) = AWAITING_DELIVERY ->
  block_timestamp env < expiryTime (store st) ->
  (c = ConfirmDelivery /\ msg_sender env = buyer (store st)
     /\ sellerApproved (store st) = true
   \/ c = ConfirmPayment /\ msg_sender env = seller (store st)
     /\ buyerApproved (store st) = true) ->
  call receives env c st
  = if amount (store st) <? adminFee (store st) then (Err Panic, st)
    else match release receives (this env) (store st) (ledger st) with
         | Some l' =>
             (Ok tt,
              {| store :=
                   set_currentState COMPLETE
                     (match c with
                      | ConfirmDelivery => set_buyerApproved true (store st)
                      | _ => set_sellerApproved true (store st)
                      end);
                 ledger := l';
                 log := log st ++ [ResolutionApproved (msg_sender env);
                                   FundsReleased] |})
         | None => (Err TransferFailed, st)
         end.
Proof.
  intros Hm Hs Hnow Hc. unfold release.
  destruct (Z.ltb_spec (amount (store st)) (adminFee (store st)));
    destruct Hc as [(-> & Hsender & Hother) | (-> & Hsender & Hother)].
  all: exec ltac:(contra); try contra.
  all: repeat match goal with
       | H : Ledger.transfer _ _ _ _ _ = _ |- _ => rewrite H
       end; rewrite <- ?app_assoc; reflexivity.
Qed.

(** A confirmation that is not sent by the seller, on a dual-approval
    agreement that awaits delivery without the seller's approval, leaves the
    state, the ledger and the seller's approval; and likewise for the
    buyer. *)
Lemma confirmation_by_another receives env c st :
  requireMultiSig (store st) = true ->
  currentState (store st) = AWAITING_DELIVERY ->
  c = ConfirmDelivery \/ c = ConfirmPayment ->
  let st' := snd (call receives env c st) in
  (sellerApproved (store st) = false ->
   msg_sender env <> seller (store st) ->
   currentState (store st') = AWAITING_DELIVERY
   /\ ledger st' = ledger st
   /\ sellerApproved (store st') = false)
  /\ (buyerApproved (store st) = false ->
      msg_sender env <> buyer (store st) ->
      currentState (store st') = AWAITING_DELIVERY
      /\ ledger st' = ledger st
      /\ buyerApproved (store st') = false).
Proof.
  intros Hm Hs [-> | ->];
    exec ltac:(first [ solve [split; intros; repeat split; assumption]
                     | contra ]);
    try contra;
    split; intros; repeat split; first [assumption | reflexivity | contra].
Qed.

(** Confirmations alone, none of them sent by the seller (by the buyer),
    never release: the agreement awaits delivery and the ledger is as it
    was. *)
Lemma confirmations_by_one_party receives self txs st :
  requireMultiSig (store st) = true ->
  currentState (store st) = AWAITING_DELIVERY ->
  Forall (fun tx => snd tx = ConfirmDelivery \/ snd tx = ConfirmPayment) txs ->
  let st' := run receives self txs st in
  (sellerApproved (store st) = false ->
   Forall (fun tx => fst (fst tx) <> seller (store st)) txs ->
   currentState (store st') = AWAITING_DELIVERY
   /\ ledger st' = ledger st
   /\ sellerApproved (store st') = false)
  /\ (buyerApproved (store st) = false ->
      Forall (fun tx => fst (fst tx) <> buyer (store st)) txs ->
      currentState (store st') = AWAITING_DELIVERY
      /\ ledger st' = ledger st
      /\ buyerApproved (store st') = false).
Proof.
  intros Hm Hs Hconf. cbv zeta. revert st Hm Hs.
  induction Hconf as [|[[sender now] c] rest Hc Hrest IH]; intros st Hm Hs.
  - repeat split; assumption.
  - rewrite run_cons.
    set (env := {| msg_sender := sender; block_timestamp := now;
                   this := self |}).
    simpl in Hc.
    pose proof (confirmation_by_another receives env c st Hm Hs Hc)
      as [Hseller Hbuyer].
    pose proof (call_same_terms receives env c st)
      as (_ & Hbuy & Hsel & _ & _ & _ & Hmul).
    cbv zeta in Hseller, Hbuyer. cbn [msg_sender env] in Hseller, Hbuyer.
    split.
    + intros Hs0 Hall. apply Forall_cons in Hall as [Hne Hall].
      simpl in Hne. destruct (Hseller Hs0 Hne) as (Hst & Hl & Hflag).
      destruct (IH (snd (call receives env c st))) as [IHs _];
        [congruence | exact Hst |].
      rewrite Hsel in IHs. destruct (IHs Hflag Hall) as (H1 & H2 & H3).
      repeat split; congruence.
    + intros Hb0 Hall. apply Forall_cons in Hall as [Hne Hall].
      simpl in Hne. destruct (Hbuyer Hb0 Hne) as (Hst & Hl & Hflag).
      destruct (IH (snd (call receives env c st))) as [_ IHb];
        [congruence | exact Hst |].
      rewrite Hbuy in IHb. destruct (IHb Hflag Hall) as (H1 & H2 & H3).
      repeat split; congruence.
Qed.

(** C5, as stated, does not hold for every agreement: the release of the
    second confirmation pays with [transfer], and when a payee refuses the
    payment (here the admin) the second confirmation reverts and the
    agreement still awaits resolution. *)
Lemma second_confirmation_with_refusing_admin :
  ~ (forall receives self st now1 now2,
       requireMultiSig (store st) = true ->
       currentState (store st) = AWAITING_DELIVERY ->
       buyerApproved (store st) = false ->
       sellerApproved (store st) = false ->
       now1 < expiryTime (store st) ->
       now2 < expiryTime (store st) ->
       exists st1 st2,
         call receives
           {| msg_sender := buyer (store st); block_timestamp := now1;
              this := self |} ConfirmDelivery st = (Ok tt, st1)
         /\ call receives
              {| msg_sender := seller (store st); block_timestamp := now2;
                 this := self |} ConfirmPayment st1 = (Ok tt, st2)
         /\ currentState (store st2) = COMPLETE).
Proof.
  intros H.
  destruct (H (fun a => negb (a =? 3)%N) 9%N (sample AWAITING_DELIVERY true)
              5 6 eq_refl eq_refl eq_refl eq_refl)
    as (st1 & st2 & H1 & H2 & _).
  - simpl. lia.
  - simpl. lia.
  - vm_compute in H1. injection H1 as <-.
    vm_compute in H2. discriminate.
Qed.

(** C5, amended: on a dual-approval agreement awaiting resolution, funds are
    released only when both parties have confirmed.  Confirmations alone,
    in any number and order, none of them sent by the seller (or none by the
    buyer), leave the agreement awaiting resolution and the ledger as it
    was; and a confirmation changes the state or the ledger only if both
    approvals are set when it returns.  With no approval given yet, in
    either order of the buyer's confirmDelivery and the seller's
    confirmPayment, both before the expiry: the first one succeeds, sets the
    approval of its caller and no other, and leaves the state and the ledger;
    the second one makes the release (deposit less fee to the seller, fee to
    the admin), moves to Complete and logs FundsReleased once, after which
    every call fails and changes nothing, provided the release can be paid.
    It can when the fee is at most the deposit, the seller and the admin
    accept payments and the contract holds the deposit; when the fee exceeds
    the deposit or a payee refuses, the second confirmation fails (panic or
    TransferFailed) and the agreement stays as the first one left it. *)
Theorem dual_approval_release receives self st :
  let s := store st in
  requireMultiSig s = true ->
  currentState s = AWAITING_DELIVERY ->
  (forall txs,
     Forall (fun tx => snd tx = ConfirmDelivery \/ snd tx = ConfirmPayment)
       txs ->
     let st' := run receives self txs st in
     (sellerApproved s = false ->
      Forall (fun tx => fst (fst tx) <> seller s) txs ->
      currentState (store st') = AWAITING_DELIVERY
      /\ ledger st' = ledger st
      /\ sellerApproved (store st') = false)
     /\ (buyerApproved s = false ->
         Forall (fun tx => fst (fst tx) <> buyer s) txs ->
         currentState (store st') = AWAITING_DELIVERY
         /\ ledger st' = ledger st
         /\ buyerApproved (store st') = false))
  /\ (forall env c,
        c = ConfirmDelivery \/ c = ConfirmPayment ->
        let st' := snd (call receives env c st) in
        (buyerApproved (store st') = true /\ sellerApproved (store st') = true)
        \/ (currentState (store st') = AWAITING_DELIVERY
            /\ ledger st' = ledger st))
  /\ (buyerApproved s = false ->
      sellerApproved s = false ->
      forall now1 now2 first second,
        now1 < expiryTime s ->
        now2 < expiryTime s ->
        (first = (buyer s, ConfirmDelivery)
         /\ second = (seller s, ConfirmPayment))
        \/ (first = (seller s, ConfirmPayment)
            /\ second = (buyer s, ConfirmDelivery)) ->
        let env1 := {| msg_sender := fst first; block_timestamp := now1;
                       this := self |} in
        let env2 := {| msg_sender := fst second; block_timestamp := now2;
                       this := self |} in
        exists st1,
          call receives env1 (snd first) st = (Ok tt, st1)
          /\ currentState (store st1) = AWAITING_DELIVERY
          /\ ledger st1 = ledger st
          /\ buyerApproved (store st1)
             = match snd first with ConfirmDelivery => true | _ => false end
          /\ sellerApproved (store st1)
             = match snd first with ConfirmPayment => true | _ => false end
          /\ log st1 = log st ++ [ResolutionApproved (fst first)]
          /\ (amount s < adminFee s ->
              call receives env2 (snd second) st1 = (Err Panic, st1))
          /\ (adminFee s <= amount s ->
              release receives self s (ledger st) = None ->
              call receives env2 (snd second) st1 = (Err TransferFailed, st1))
          /\ (adminFee s <= amount s ->
              forall l',
                release receives self s (ledger st) = Some l' ->
                exists st2,
                  call receives env2 (snd second) st1 = (Ok tt, st2)
                  /\ currentState (store st2) = COMPLETE
                  /\ buyerApproved (store st2) = true
                  /\ sellerApproved (store st2) = true
                  /\ ledger st2 = l'
                  /\ released self s (ledger st) (ledger st2)
                  /\ log st2
                     = log st ++ [ResolutionApproved (fst first);
                                  ResolutionApproved (fst second);
                                  FundsReleased]
                  /\ forall env c,
                       exists e, call receives env c st2 = (Err e, st2))
          /\ (receives (seller s) = true ->
              receives (admin s) = true ->
              0 <= adminFee s <= amount s ->
              amount s <= Ledger.balanceOf (ledger st) self ->
              exists l', release receives self s (ledger st) = Some l')).
Proof.
  intros s Hm Hs. subst s. split; [|split].
  - intros txs Hconf.
    apply confirmations_by_one_party; assumption.
  - intros env c Hc st'. subst st'.
    destruct (confirmation_gated receives env c st Hm Hc) as [H | [H1 H2]];
      [left; exact H | right].
    split; [congruence | exact H2].
  - intros Hb0 Hs0 now1 now2 first second Hn1 Hn2 Horder env1 env2.
    assert (H1 : exists st1,
      call receives env1 (snd first) st = (Ok tt, st1)
      /\ currentState (store st1) = AWAITING_DELIVERY
      /\ ledger st1 = ledger st
      /\ buyerApproved (store st1)
         = match snd first with
           | ConfirmDelivery => true
           | _ => buyerApproved (store st)
           end
      /\ sellerApproved (store st1)
         = match snd first with
           | ConfirmPayment => true
           | _ => sellerApproved (store st)
           end
      /\ same_terms (store st) (store st1)
      /\ log st1 = log st ++ [ResolutionApproved (msg_sender env1)]).
    { apply first_confirmation; try assumption.
      destruct Horder as [[-> _] | [-> _]]; [left | right];
        repeat split; assumption. }
    destruct H1 as (st1 & Hcall1 & Hst1 & Hl1 & Hb1 & Hs1 & Hterms & Hlog1).
    pose proof Hterms as (Ha & Hbuy & Hsel & Hexp & Hf & Hamt & Hmul).
    assert (Horder2 :
      snd second = ConfirmDelivery /\ msg_sender env2 = buyer (store st1)
        /\ sellerApproved (store st1) = true
      \/ snd second = ConfirmPayment /\ msg_sender env2 = seller (store st1)
        /\ buyerApproved (store st1) = true).
    { rewrite Hb1, Hs1, Hbuy, Hsel.
      destruct Horder as [[-> ->] | [-> ->]]; [right | left];
        repeat split; reflexivity. }
    assert (Hn2' : block_timestamp env2 < expiryTime (store st1))
      by (rewrite Hexp; exact Hn2).
    assert (Hm' : requireMultiSig (store st1) = true) by congruence.
    pose proof (second_confirmation_outcome receives env2 (snd second) st1
                  Hm' Hst1 Hn2' Horder2) as Hsecond.
    assert (Hrelease :
      release receives (this env2) (store st1) (ledger st1)
      = release receives self (store st) (ledger st)).
    { unfold release. cbn [this env2]. rewrite Hsel, Hamt, Hf, Ha, Hl1.
      reflexivity. }
    rewrite Hrelease, Hamt, Hf in Hsecond.
    exists st1.
    split; [exact Hcall1|]. split; [exact Hst1|]. split; [exact Hl1|].
    split.
    { rewrite Hb1, Hb0. destruct (snd first); reflexivity. }
    split.
    { rewrite Hs1, Hs0. destruct (snd first); reflexivity. }
    split; [exact Hlog1|].
    split.
    { intros Hlt. rewrite Hsecond.
      destruct (Z.ltb_spec (amount (store st)) (adminFee (store st)));
        [reflexivity | lia]. }
    split.
    { intros Hle Hnone. rewrite Hsecond, Hnone.
      destruct (Z.ltb_spec (amount (store st)) (adminFee (store st)));
        [lia | reflexivity]. }
    split.
    { intros Hle l' Hsome. rewrite Hsecond, Hsome.
      destruct (Z.ltb_spec (amount (store st)) (adminFee (store st)));
        [lia|].
      eexists. split; [reflexivity|]. proj.
      split; [reflexivity|].
      split.
      { destruct Horder as [[-> ->] | [-> ->]]; proj;
          first [reflexivity | exact Hb1]. }
      split.
      { destruct Horder as [[-> ->] | [-> ->]]; proj;
          first [reflexivity | exact Hs1]. }
      split; [reflexivity|].
      split; [eapply release_released; exact Hsome|].
      split.
      { rewrite Hlog1, <- app_assoc. reflexivity. }
      intros env c. apply terminal_call_reverts. reflexivity. }
    apply release_Some.
Qed.

(** The seller confirms first and the buyer second on the sample agreement:
    the release pays 975 and 25; with an admin that refuses payments the
    second confirmation fails and the agreement stays as the first left
    it. *)
Lemma dual_approval_release_witness :
  let st := sample AWAITING_DELIVERY true in
  (exists st1 st2,
     call (fun _ => true) (at_ 2 5) ConfirmPayment st = (Ok tt, st1)
     /\ currentState (store st1) = AWAITING_DELIVERY
     /\ ledger st1 = ledger st
     /\ buyerApproved (store st1) = false
     /\ sellerApproved (store st1) = true
     /\ call (fun _ => true) (at_ 1 6) ConfirmDelivery st1 = (Ok tt, st2)
     /\ currentState (store st2) = COMPLETE
     /\ released 9 (store st) (ledger st) (ledger st2))
  /\ (exists st1,
        call (fun a => negb (a =? 3)%N) (at_ 2 5) ConfirmPayment st
        = (Ok tt, st1)
        /\ call (fun a => negb (a =? 3)%N) (at_ 1 6) ConfirmDelivery st1
           = (Err TransferFailed, st1))
  /\ currentState
       (store (run (fun _ => true) 9
                 [(1%N, 5, ConfirmDelivery); (1%N, 6, ConfirmDelivery);
                  (3%N, 7, ConfirmPayment); (1%N, 8, ConfirmPayment)] st))
     = AWAITING_DELIVERY.
Proof.
  intros st.
  assert (Hfee : 0 <= adminFee (store st) <= amount (store st))
    by (split; vm_compute; discriminate).
  assert (Hbal : amount (store st) <= Ledger.balanceOf (ledger st) 9)
    by (vm_compute; discriminate).
  assert (Hn1 : 5 < expiryTime (store st)) by (simpl; lia).
  assert (Hn2 : 6 < expiryTime (store st)) by (simpl; lia).
  assert (Horder :
    (2%N, ConfirmPayment) = (buyer (store st), ConfirmDelivery)
    /\ (1%N, ConfirmDelivery) = (seller (store st), ConfirmPayment)
    \/ (2%N, ConfirmPayment) = (seller (store st), ConfirmPayment)
       /\ (1%N, ConfirmDelivery) = (buyer (store st), ConfirmDelivery))
    by (right; split; reflexivity).
  split; [|split].
  - destruct (dual_approval_release (fun _ => true) 9 st eq_refl eq_refl)
      as (_ & _ & H).
    destruct (H eq_refl eq_refl 5 6 _ _ Hn1 Hn2 Horder)
      as (st1 & H1 & H2 & H3 & H4 & H5 & _ & _ & _ & Hpaid & Hcan).
    destruct (Hcan eq_refl eq_refl Hfee Hbal) as [l' Hl'].
    destruct (Hpaid (proj2 Hfee) l' Hl')
      as (st2 & H6 & H7 & _ & _ & _ & H8 & _).
    exists st1, st2. repeat split; assumption.
  - destruct (dual_approval_release (fun a => negb (a =? 3)%N) 9 st
                eq_refl eq_refl) as (_ & _ & H).
    destruct (H eq_refl eq_refl 5 6 _ _ Hn1 Hn2 Horder)
      as (st1 & H1 & _ & _ & _ & _ & _ & _ & Hfail & _).
    exists st1. split; [exact H1|].
    apply Hfail; [exact (proj2 Hfee) | reflexivity].
  - destruct (dual_approval_release (fun _ => true) 9 st eq_refl eq_refl)
      as (H & _).
    destruct (H [(1%N, 5, ConfirmDelivery); (1%N, 6, ConfirmDelivery);
                 (3%N, 7, ConfirmPayment); (1%N, 8, ConfirmPayment)])
      as [Hseller _].
    + repeat (constructor;
                [first [left; reflexivity | right; reflexivity]|]).
      constructor.
    + apply Hseller; [reflexivity|].
      repeat constructor; simpl; discriminate.
Defined.

(** The reverts of [adminResolution] are those of the admin guard, of the
    state check, of the subtraction of the fee and of the transfers. *)
Lemma adminResolution_error receives env b st :
  match fst (call receives env (AdminResolution b) st) with
  | Ok _ => True
  | Err e => error_kind e <> Expired
  end.
Proof.
  exec ltac:(discriminate); first [exact I | discriminate].
Qed.

(** C6, as stated, does not hold: [adminResolution] has no expiry guard.
    On a Disputed agreement the admin's resolution at the expiry time
    succeeds. *)
Lemma adminResolution_after_expiry :
  ~ (forall receives env c st,
       c <> ExpireEscrow ->
       expiryTime (store st) <= block_timestamp env ->
       exists e, call receives env c st = (Err e, st)
                 /\ error_kind e = Expired).
Proof.
  intros H.
  destruct (H (fun _ => true) (at_ 3 100) (AdminResolution true)
              (sample DISPUTED false)) as (e & Hcall & _).
  - discriminate.
  - simpl. lia.
  - vm_compute in Hcall. discriminate.
Qed.

(** C6, amended: at or past the expiry time, confirmDelivery,
    confirmPayment, requestRefund and raiseDispute fail and change nothing;
    the failure is the one of the expiry guard (Expired) when the caller is
    the buyer or the seller, and the one of the party guard (Unauthorized)
    otherwise.  [adminResolution] is outside this rule: it has no expiry
    guard, its outcome does not depend on the time and it never fails with
    Expired. *)
Theorem expired_party_calls_fail receives env c st :
  expiryTime (store st) <= block_timestamp env ->
  (c = ConfirmDelivery \/ c = ConfirmPayment
   \/ c = RequestRefund \/ c = RaiseDispute ->
   exists e,
     call receives env c st = (Err e, st)
     /\ (is_party env (store st) = true ->
         e = Require "Escrow expired" /\ error_kind e = Expired)
     /\ (is_party env (store st) = false ->
         e = Require "Not a party" /\ error_kind e = Unauthorized))
  /\ (forall b now,
        call receives
          {| msg_sender := msg_sender env; block_timestamp := now;
             this := this env |} (AdminResolution b) st
        = call receives env (AdminResolution b) st)
  /\ (forall b e st',
        call receives env (AdminResolution b) st = (Err e, st') ->
        error_kind e <> Expired).
Proof.
  intros Hnow. split; [|split].
  3: { intros b e st' H.
       pose proof (adminResolution_error receives env b st) as Hk.
       rewrite H in Hk. exact Hk. }
  - intros Hc. unfold is_party.
    destruct ((msg_sender env =? buyer (store st))%N
              || (msg_sender env =? seller (store st))%N) eqn:Hparty.
    + exists (Require "Escrow expired").
      split; [| split; [intros _; split; reflexivity | discriminate]].
      destruct Hc as [-> | [-> | [-> | ->]]];
        exec ltac:(first [reflexivity | contra]); contra.
    + exists (Require "Not a party").
      split; [| split; [discriminate | intros _; split; reflexivity]].
      destruct Hc as [-> | [-> | [-> | ->]]];
        exec ltac:(first [reflexivity | contra]); contra.
  - intros b now. reflexivity.
Qed.

Lemma expired_party_calls_fail_witness :
  call (fun _ => true) (at_ 1 100) RequestRefund (sample AWAITING_DELIVERY false)
  = (Err (Require "Escrow expired"), sample AWAITING_DELIVERY false)
  /\ error_kind (Require "Escrow expired") = Expired.
Proof.
  assert (Hnow : expiryTime (store (sample AWAITING_DELIVERY false))
                 <= block_timestamp (at_ 1 100)) by (simpl; lia).
  destruct (expired_party_calls_fail (fun _ => true) (at_ 1 100) RequestRefund
              (sample AWAITING_DELIVERY false) Hnow) as [H _].
  destruct H as (e & Hcall & Hparty & _).
  - right. right. left. reflexivity.
  - destruct (Hparty eq_refl) as [-> Hk]. split; assumption.
Defined.

End Agreement.

(** ** The contract [EscrowFactory] *)

Module FactoryFacts.
Import EscrowFactory LedgerFacts.

Lemma factory_run_read {A B} (f : storage -> A) (k : A -> M state B) st :
  bind (read f) k st = k (f (store st)) st.
Proof. reflexivity. Qed.

Lemma factory_run_write {B} f (k : unit -> M state B) st :
  bind (write f) k st
  = k tt {| store := f (store st); ledger := ledger st; log := log st |}.
Proof. reflexivity. Qed.

Lemma factory_run_emit {B} e (k : unit -> M state B) st :
  bind (emit e) k st
  = k tt {| store := store st; ledger := ledger st; log := log st ++ [e] |}.
Proof. reflexivity. Qed.

Lemma run_pay {B} from to v (k : unit -> M state B) st :
  bind (pay from to v) k st
  = match Ledger.move from to v (ledger st) with
    | Some l' => k tt {| store := store st; ledger := l'; log := log st |}
    | None => (Err TransferFailed, st)
    end.
Proof. unfold bind, pay. destruct (Ledger.move _ _ _ _); reflexivity. Qed.

(** The result of [Escrow.constructor]: a revert on overflow of the fee
    product or of the expiry time, and the storage of the agreement
    otherwise. *)
Lemma constructor_result {S} now value b s a days multi pct (st : S) :
  Escrow.constructor now value b s a days multi pct st
  = if value * pct <=? MAX_UINT256 then
      if days * 86400 <=? MAX_UINT256 then
        if now + days * 86400 <=? MAX_UINT256 then
          (Ok {| Escrow.admin := a; Escrow.buyer := b; Escrow.seller := s;
                 Escrow.expiryTime := now + days * 86400;
                 Escrow.adminFee := value * pct / 10000;
                 Escrow.amount := value;
                 Escrow.currentState := Escrow.AWAITING_DELIVERY;
                 Escrow.requireMultiSig := multi;
                 Escrow.buyerApproved := false;
                 Escrow.sellerApproved := false |}, st)
        else (Err Panic, st)
      else (Err Panic, st)
    else (Err Panic, st).
Proof.
  unfold Escrow.constructor.
  rewrite run_checked_mul. destruct (value * pct <=? MAX_UINT256); [|reflexivity].
  rewrite run_checked_mul. destruct (days * 86400 <=? MAX_UINT256); [|reflexivity].
  rewrite run_checked_add. destruct (now + days * 86400 <=? MAX_UINT256);
    reflexivity.
Qed.

(** The fee is at most the deposit when the basis points are at most
    10000. *)
Lemma fee_le_amount value pct :
  0 <= value -> pct <= 10000 -> value * pct / 10000 <= value.
Proof.
  intros Hv Hp.
  apply Z.div_le_upper_bound; [lia|]. nia.
Qed.

End FactoryFacts.

Module Fees.
Import Escrow EscrowExec LedgerFacts EscrowFacts FactoryFacts.





End Fees.

(** * The claims about the registry *)

Module Registry.
Import EscrowFactory LedgerFacts FactoryFacts.

Ltac proj :=
  cbn [store ledger log admin adminFeePercentage allEscrows
       set_admin set_adminFeePercentage push_allEscrows
       msg_sender block_timestamp this fst snd] in *.

(** [setFeePercentage] keeps the bound of 500 basis points: a caller other
    than the admin is refused, the admin is refused a greater value, and a
    value within the bound is stored. *)
Lemma setFeePercentage_result env v st :
  external_call (setFeePercentage env v) st
  = if (msg_sender env =? admin (store st))%N then
      if v <=? 500 then
        (Ok tt, {| store := set_adminFeePercentage v (store st);
                   ledger := ledger st;
                   log := log st ++ [FeeChanged v] |})
      else (Err (Require "Max 5% fee"), st)
    else (Err (Require "Only admin"), st).
Proof.
  unfold external_call, setFeePercentage.
  rewrite factory_run_read, run_require.
  destruct (msg_sender env =? admin (store st))%N; [|reflexivity].
  rewrite run_require. destruct (v <=? 500); [|reflexivity].
  rewrite factory_run_write. reflexivity.
Qed.

(** C8 fails on the code at the initialization of the registry: the
    constructor stores the basis points it is given without the check that
    [setFeePercentage] makes.  A factory deployed with 501 basis points has
    a fee above 500 and charges it (501 on a deposit of 10000), while
    [setFeePercentage] refuses the same value to the admin with the message
    Max 5% fee (a policy violation) and refuses any other caller (not
    authorized). *)
Theorem constructor_skips_fee_bound :
  let deployed := {| store := constructor 7 501;
                     ledger := {[ 1%N := 10000 ]}; log := [] |} in
  adminFeePercentage (store deployed) = 501
  /\ 500 < adminFeePercentage (store deployed)
  /\ (exists s0 st',
        external_call
          (createEscrow
             {| msg_sender := 1; block_timestamp := 10; this := 8 |}
             10000 9 2 30 false) deployed = (Ok (9%N, s0), st')
        /\ Escrow.adminFee s0 = 501)
  /\ external_call
       (setFeePercentage
          {| msg_sender := 7; block_timestamp := 10; this := 8 |} 501)
       deployed = (Err (Require "Max 5% fee"), deployed)
  /\ error_kind (Require "Max 5% fee") = PolicyViolation
  /\ external_call
       (setFeePercentage
          {| msg_sender := 1; block_timestamp := 10; this := 8 |} 100)
       deployed = (Err (Require "Only admin"), deployed)
  /\ error_kind (Require "Only admin") = Unauthorized.
Proof.
  cbv zeta.
  split; [reflexivity|]. split; [reflexivity|].
  split.
  { eexists _, _. split; vm_compute; reflexivity. }
  repeat split; reflexivity.
Qed.

Lemma run_constructor {B} now value b s a days multi pct
  (k : Escrow.storage -> M state B) st :
  bind (Escrow.constructor now value b s a days multi pct) k st
  = match Escrow.constructor now value b s a days multi pct st with
    | (Ok s0, st') => k s0 st'
    | (Err e, st') => (Err e, st')
    end.
Proof. reflexivity. Qed.

(** What a successful [createEscrow] returns and leaves. *)
Lemma createEscrow_Ok env value created _seller days multi st a s0 st' :
  external_call (createEscrow env value created _seller days multi) st
  = (Ok (a, s0), st') ->
  0 < value
  /\ a = created
  /\ Escrow.constructor (block_timestamp env) value (msg_sender env) _seller
       (admin (store st)) days multi (adminFeePercentage (store st)) st
     = (Ok s0, st)
  /\ exists l1,
       Ledger.move (msg_sender env) (this env) value (ledger st) = Some l1
       /\ Ledger.move (this env) created value l1 = Some (ledger st').
Proof.
  unfold external_call, createEscrow.
  rewrite run_pay.
  destruct (Ledger.move (msg_sender env) (this env) value (ledger st))
    as [l1|] eqn:Hin; [|discriminate].
  rewrite run_require.
  destruct (Z.ltb_spec 0 value) as [Hpos|]; [|discriminate].
  rewrite !factory_run_read, run_pay. proj.
  destruct (Ledger.move (this env) created value l1) as [l2|] eqn:Hout;
    [|discriminate].
  rewrite run_constructor, !constructor_result.
  destruct (value * _ <=? MAX_UINT256); [|discriminate].
  destruct (days * 86400 <=? MAX_UINT256); [|discriminate].
  destruct (_ + days * 86400 <=? MAX_UINT256); [|discriminate].
  rewrite factory_run_write, factory_run_read, run_checked_sub. proj.
  destruct (1 <=? _); [|discriminate].
  rewrite factory_run_emit. unfold ret.
  intros [= <- <- <-]. proj.
  repeat split; try assumption; eauto.
Qed.

(** [createEscrow] refuses a call without value. *)
Lemma createEscrow_zero env created _seller days multi st :
  0 <= Ledger.balanceOf (ledger st) (msg_sender env) ->
  external_call (createEscrow env 0 created _seller days multi) st
  = (Err (Require "Must send ETH to create escrow"), st).
Proof.
  intros Hbal.
  unfold external_call, createEscrow.
  rewrite run_pay, move_Some by exact Hbal.
  rewrite run_require. reflexivity.
Qed.

(** The new contract holds the deposit when its address held nothing. *)
Lemma createEscrow_custody env value created _seller days multi st a s0 st' :
  external_call (createEscrow env value created _seller days multi) st
  = (Ok (a, s0), st') ->
  created <> this env ->
  created <> msg_sender env ->
  Ledger.balanceOf (ledger st) created = 0 ->
  Ledger.balanceOf (ledger st') a = Escrow.amount s0.
Proof.
  intros Hc Hthis Hsender Hzero.
  apply createEscrow_Ok in Hc as (_ & -> & Hs0 & l1 & Hin & Hout).
  rewrite constructor_result in Hs0.
  repeat (destruct (_ <=? MAX_UINT256); [|discriminate]).
  injection Hs0 as <-. cbn [Escrow.amount].
  rewrite (move_balanceOf _ _ _ _ _ Hout), (move_balanceOf _ _ _ _ _ Hin).
  rewrite Hzero.
  repeat destruct (decide _); try congruence; lia.
Qed.

(** [createEscrow] conserves the sum of the balances: the deposit leaves the
    account of the caller for the account of the new contract. *)
Lemma createEscrow_total env value created _seller days multi st r st' :
  external_call (createEscrow env value created _seller days multi) st
  = (r, st') ->
  Ledger.total (ledger st') = Ledger.total (ledger st).
Proof.
  destruct r as [[a s0]|e]; intros Hc.
  - apply createEscrow_Ok in Hc as (_ & _ & _ & l1 & Hin & Hout).
    apply move_total in Hin, Hout. congruence.
  - unfold external_call in Hc.
    destruct (createEscrow _ _ _ _ _ _ st) as [[[]|] ?]; congruence.
Qed.

(** C9, as stated, does not hold: [createEscrow] takes an expiry of zero
    days, and the agreement then expires at the time of its creation, not
    after it. *)
Lemma created_agreement_expiring_at_creation :
  ~ (forall env value created _seller days multi st a s0 st',
       is_uint256 days ->
       external_call (createEscrow env value created _seller days multi) st
       = (Ok (a, s0), st') ->
       0 < Escrow.amount s0
       /\ Escrow.adminFee s0 <= Escrow.amount s0
       /\ block_timestamp env < Escrow.expiryTime s0).
Proof.
  intros H.
  pose (st := {| store := constructor 7 250;
                 ledger := {[ 1%N := 1000 ]}; log := [] |}).
  pose (env := {| msg_sender := 1%N; block_timestamp := 10; this := 8%N |}).
  assert (Hr : exists s0 st',
            external_call (createEscrow env 1000 9 2 0 false) st
            = (Ok (9%N, s0), st')
            /\ Escrow.expiryTime s0 = 10).
  { eexists _, _. split; vm_compute; reflexivity. }
  destruct Hr as (s0 & st' & Hr & Hexp).
  apply H in Hr as (_ & _ & Hlt).
  - rewrite Hexp in Hlt. simpl in Hlt. lia.
  - split; vm_compute; discriminate.
Qed.

(** C9, amended: [createEscrow] refuses a call without value; an agreement
    it creates has a positive deposit, an expiry time that is the creation
    time plus the expiry days (not before the creation time, and after it
    when the days are positive) and, when the basis points of the registry
    are within the bound of 500, a fee of at most the deposit; no sequence
    of calls on the agreement changes the deposit, the fee or the expiry
    time. *)
Theorem created_agreement_invariants env value created _seller days multi st :
  0 <= days ->
  (0 <= Ledger.balanceOf (ledger st) (msg_sender env) ->
   external_call (createEscrow env 0 created _seller days multi) st
   = (Err (Require "Must send ETH to create escrow"), st))
  /\ forall a s0 st',
       external_call (createEscrow env value created _seller days multi) st
       = (Ok (a, s0), st') ->
       0 < Escrow.amount s0
       /\ Escrow.amount s0 = value
       /\ Escrow.expiryTime s0 = block_timestamp env + days * 86400
       /\ block_timestamp env <= Escrow.expiryTime s0
       /\ (0 < days -> block_timestamp env < Escrow.expiryTime s0)
       /\ (0 <= adminFeePercentage (store st) <= 500 ->
           0 <= Escrow.adminFee s0 <= Escrow.amount s0)
       /\ forall receives txs l lg,
            let s := Escrow.store
                       (Escrow.run receives a txs
                          {| Escrow.store := s0; Escrow.ledger := l;
                             Escrow.log := lg |}) in
            Escrow.amount s = Escrow.amount s0
            /\ Escrow.adminFee s = Escrow.adminFee s0
            /\ Escrow.expiryTime s = Escrow.expiryTime s0.
Proof.
  intros Hdays. split; [apply createEscrow_zero|].
  intros a s0 st' Hc.
  apply createEscrow_Ok in Hc as (Hpos & -> & Hs0 & _).
  split.
  { rewrite constructor_result in Hs0.
    repeat (destruct (_ <=? MAX_UINT256); [|discriminate]).
    injection Hs0 as <-. exact Hpos. }
  assert (Hfields :
    Escrow.amount s0 = value
    /\ Escrow.expiryTime s0 = block_timestamp env + days * 86400
    /\ Escrow.adminFee s0 = value * adminFeePercentage (store st) / 10000).
  { rewrite constructor_result in Hs0.
    repeat (destruct (_ <=? MAX_UINT256); [|discriminate]).
    injection Hs0 as <-. repeat split. }
  destruct Hfields as (Hamt & Hexp & Hfee).
  split; [exact Hamt|]. split; [exact Hexp|].
  split; [lia|]. split; [lia|].
  split.
  { intros Hpct. rewrite Hfee, Hamt.
    split; [apply Z.div_pos; nia | apply fee_le_amount; lia]. }
  intros receives txs l lg s. subst s.
  pose proof (EscrowFacts.run_same_terms receives created txs
                {| Escrow.store := s0; Escrow.ledger := l;
                   Escrow.log := lg |}) as Hsame.
  unfold Escrow.same_terms in Hsame. cbn [Escrow.store] in Hsame. tauto.
Qed.

Lemma created_agreement_invariants_witness :
  let st := {| store := constructor 7 250;
               ledger := {[ 1%N := 1000 ]}; log := [] |} in
  let env := {| msg_sender := 1%N; block_timestamp := 10; this := 8%N |} in
  exists s0 st',
    external_call (createEscrow env 1000 9 2 30 false) st
    = (Ok (9%N, s0), st')
    /\ 0 < Escrow.amount s0
    /\ 0 <= Escrow.adminFee s0 <= Escrow.amount s0
    /\ block_timestamp env < Escrow.expiryTime s0.
Proof.
  intros st env.
  assert (Hr : exists s0 st',
            external_call (createEscrow env 1000 9 2 30 false) st
            = (Ok (9%N, s0), st')).
  { eexists _, _. vm_compute. reflexivity. }
  destruct Hr as (s0 & st' & Hr).
  exists s0, st'. split; [exact Hr|].
  assert (Hdays : 0 <= 30) by lia.
  destruct (created_agreement_invariants env 1000 9 2 30 false st Hdays)
    as [_ H].
  destruct (H _ _ _ Hr) as (Hpos & _ & _ & _ & Hexp & Hfee & _).
  split; [exact Hpos|]. split.
  - apply Hfee. split; vm_compute; discriminate.
  - apply Hexp. lia.
Defined.

End Registry.

(** * Further properties of an agreement *)

Module MoreAgreement.
Import Escrow EscrowExec LedgerFacts EscrowFacts.

(** X1: [raiseDispute] succeeds exactly for the buyer or the seller, before the
    expiry, on an agreement awaiting delivery; it then only sets the state
    to DISPUTED and logs the caller: the ledger and the approvals stay. *)
Theorem raiseDispute_opens_dispute receives env st st' :
  call receives env RaiseDispute st = (Ok tt, st')
  <-> (is_party env (store st) = true
       /\ block_timestamp env < expiryTime (store st)
       /\ currentState (store st) = AWAITING_DELIVERY
       /\ st' = {| store := set_currentState DISPUTED (store st);
                   ledger := ledger st;
                   log := log st ++ [DisputeRaised (msg_sender env)] |}).
Proof.
  split.
  - unfold is_party.
    exec ltac:(discriminate).
    intros [= <-]. reflect_hyps; repeat split; auto.
    all: apply orb_true_iff; rewrite ?N.eqb_eq; auto.
  - intros (Hp & Hn & Hs & ->).
    exec ltac:(contra); try contra. reflexivity.
Qed.

Lemma raiseDispute_opens_dispute_witness :
  exists st',
    call (fun _ => true) (at_ 2 5) RaiseDispute (sample AWAITING_DELIVERY true)
    = (Ok tt, st')
    /\ currentState (store st') = DISPUTED
    /\ ledger st' = ledger (sample AWAITING_DELIVERY true).
Proof.
  eexists. split.
  - apply (raiseDispute_opens_dispute (fun _ => true) (at_ 2 5)
             (sample AWAITING_DELIVERY true)).
    split; [reflexivity|]. split; [simpl; lia|]. split; reflexivity.
  - split; reflexivity.
Defined.

(** A call on a disputed agreement that is not the admin's resolution
    reverts. *)
Lemma disputed_call_reverts receives env c st :
  currentState (store st) = DISPUTED ->
  msg_sender env <> admin (store st) \/ (forall b, c <> AdminResolution b) ->
  exists e, call receives env c st = (Err e, st).
Proof.
  intros Hs Hc.
  destruct c; exec ltac:(first [solve [eauto] | contra]);
    try contra.
  all: destruct Hc as [Hc | Hc]; [contra | exfalso; eapply Hc; reflexivity].
Qed.

(** X2: A disputed agreement is frozen until the admin acts: every call that is
    not [adminResolution] by the admin reverts, [expireEscrow] after the
    expiry included (with the message Already resolved), and a sequence of
    calls none of which is sent by the admin leaves the whole state. *)
Theorem disputed_waits_for_admin receives self st :
  currentState (store st) = DISPUTED ->
  (forall env c,
     msg_sender env <> admin (store st) \/ (forall b, c <> AdminResolution b) ->
     exists e, call receives env c st = (Err e, st))
  /\ (forall env,
        expiryTime (store st) <= block_timestamp env ->
        call receives env ExpireEscrow st
        = (Err (Require "Already resolved"), st))
  /\ (forall txs,
        Forall (fun tx => fst (fst tx) <> admin (store st)) txs ->
        run receives self txs st = st).
Proof.
  intros Hs. split; [|split].
  - intros env c Hc. apply disputed_call_reverts; assumption.
  - intros env Hnow. exec ltac:(contra); try contra. reflexivity.
  - intros txs Htxs.
    induction txs as [|[[sender now] c] rest IH]; [reflexivity|].
    apply Forall_cons in Htxs as [Hsender Hrest].
    rewrite run_cons.
    destruct (disputed_call_reverts receives
                {| msg_sender := sender; block_timestamp := now;
                   this := self |} c st Hs (or_introl Hsender)) as [e ->].
    apply IH, Hrest.
Qed.

Lemma disputed_waits_for_admin_witness :
  run (fun _ => true) 9
    [(1%N, 5, ConfirmDelivery); (2%N, 6, RequestRefund);
     (7%N, 200, ExpireEscrow); (1%N, 7, AdminResolution true)]
    (sample DISPUTED false)
  = sample DISPUTED false.
Proof.
  destruct (disputed_waits_for_admin (fun _ => true) 9 (sample DISPUTED false)
              eq_refl) as (_ & _ & H).
  apply H.
  repeat constructor; simpl; discriminate.
Defined.

(** X3: [adminResolution] by the admin on a disputed agreement, at any time:
    with [true] it pays the seller and the admin as a release does (and
    reverts with a panic when the fee exceeds the deposit), with [false] it
    pays the buyer all the contract holds; in both cases the state becomes
    COMPLETE, no event is logged and the approvals stay.  A failed transfer
    reverts the call. *)
Theorem adminResolution_outcome receives env b st :
  msg_sender env = admin (store st) ->
  currentState (store st) = DISPUTED ->
  call receives env (AdminResolution b) st
  = if b && (amount (store st) <? adminFee (store st)) then (Err Panic, st)
    else match payout receives (this env) (store st) (AdminResolution b)
                 (ledger st) with
         | Some l' => (Ok tt, {| store := set_currentState COMPLETE (store st);
                                 ledger := l'; log := log st |})
         | None => (Err TransferFailed, st)
         end.
Proof.
  intros Ha Hs.
  destruct b; cbn [payout andb]; unfold release, refund.
  - destruct (Z.ltb_spec (amount (store st)) (adminFee (store st))).
    + exec ltac:(contra); try contra. reflexivity.
    + exec ltac:(contra); try contra.
      all: repeat match goal with
           | H : Ledger.transfer _ _ _ _ _ = _ |- _ => rewrite H
           end; reflexivity.
  - exec ltac:(contra); try contra.
    all: repeat match goal with
         | H : Ledger.transfer _ _ _ _ _ = _ |- _ => rewrite H
         end; reflexivity.
Qed.

Lemma adminResolution_outcome_witness :
  exists st',
    call (fun _ => true) (at_ 3 500) (AdminResolution false)
      (sample DISPUTED false) = (Ok tt, st')
    /\ currentState (store st') = COMPLETE
    /\ log st' = []
    /\ Ledger.balanceOf (ledger st') 1 = 1000.
Proof.
  eexists. split.
  - rewrite (adminResolution_outcome (fun _ => true) (at_ 3 500) false
               (sample DISPUTED false) eq_refl eq_refl).
    reflexivity.
  - repeat split; reflexivity.
Defined.

(** X4: [requestRefund] by the buyer before the expiry on an agreement awaiting
    delivery pays the buyer all the contract holds and moves to REFUNDED,
    whatever the approval mode, the approvals already given and the fee; a
    failed transfer reverts the call. *)
Theorem requestRefund_outcome receives env st :
  msg_sender env = buyer (store st) ->
  block_timestamp env < expiryTime (store st) ->
  currentState (store st) = AWAITING_DELIVERY ->
  call receives env RequestRefund st
  = match refund receives (this env) (store st) (ledger st) with
    | Some l' => (Ok tt, {| store := set_currentState REFUNDED (store st);
                            ledger := l';
                            log := log st ++ [RefundIssued] |})
    | None => (Err TransferFailed, st)
    end.
Proof.
  intros Hb Hn Hs. unfold refund.
  exec ltac:(contra); try contra.
  all: repeat match goal with
       | H : Ledger.transfer _ _ _ _ _ = _ |- _ => rewrite H
       end; reflexivity.
Qed.

(** The buyer has approved in dual-approval mode and takes the deposit
    back. *)
Lemma requestRefund_outcome_witness :
  let st := snd (call (fun _ => true) (at_ 1 5) ConfirmDelivery
                   (sample AWAITING_DELIVERY true)) in
  buyerApproved (store st) = true
  /\ exists st',
       call (fun _ => true) (at_ 1 6) RequestRefund st = (Ok tt, st')
       /\ currentState (store st') = REFUNDED
       /\ Ledger.balanceOf (ledger st') 1 = 1000.
Proof.
  intros st. split; [reflexivity|].
  eexists. split.
  - rewrite (requestRefund_outcome (fun _ => true) (at_ 1 6) st eq_refl).
    + reflexivity.
    + simpl. lia.
    + reflexivity.
  - split; reflexivity.
Defined.

(** X5: [confirmDelivery] by the buyer before the expiry on a single-approval
    agreement awaiting delivery: it reverts with a panic when the fee exceeds
    the deposit and with the failure of a transfer when the seller or the
    admin cannot be paid; otherwise it pays the seller the deposit less the
    fee and the admin the fee, moves to COMPLETE and logs FundsReleased.  It
    records no approval. *)
Theorem confirmDelivery_single_outcome receives env st :
  msg_sender env = buyer (store st) ->
  block_timestamp env < expiryTime (store st) ->
  currentState (store st) = AWAITING_DELIVERY ->
  requireMultiSig (store st) = false ->
  call receives env ConfirmDelivery st
  = if amount (store st) <? adminFee (store st) then (Err Panic, st)
    else match release receives (this env) (store st) (ledger st) with
         | Some l' => (Ok tt, {| store := set_currentState COMPLETE (store st);
                                 ledger := l';
                                 log := log st ++ [FundsReleased] |})
         | None => (Err TransferFailed, st)
         end.
Proof.
  intros Hb Hn Hs Hm. unfold release.
  destruct (Z.ltb_spec (amount (store st)) (adminFee (store st))).
  - exec ltac:(contra); try contra. reflexivity.
  - exec ltac:(contra); try contra.
    all: repeat match goal with
         | H : Ledger.transfer _ _ _ _ _ = _ |- _ => rewrite H
         end; reflexivity.
Qed.

Lemma confirmDelivery_single_outcome_witness :
  exists st',
    call (fun _ => true) (at_ 1 5) ConfirmDelivery
      (sample AWAITING_DELIVERY false) = (Ok tt, st')
    /\ currentState (store st') = COMPLETE
    /\ buyerApproved (store st') = false
    /\ Ledger.balanceOf (ledger st') 2 = 975
    /\ Ledger.balanceOf (ledger st') 3 = 25
    /\ log st' = [FundsReleased].
Proof.
  eexists. split.
  - rewrite (confirmDelivery_single_outcome (fun _ => true) (at_ 1 5)
               (sample AWAITING_DELIVERY false) eq_refl).
    + reflexivity.
    + simpl. lia.
    + reflexivity.
    + reflexivity.
  - repeat split; reflexivity.
Defined.

(** X6: Who may call what.  A caller that is neither the buyer nor the seller is
    refused by the four functions of the parties, whatever the time and the
    state; a caller other than the admin is refused by [adminResolution];
    before the expiry the seller, when not also the buyer, is refused by
    [confirmDelivery] and [requestRefund], and the buyer, when not also the
    seller, is refused by [confirmPayment].  Each refusal leaves the state
    and is an error of authorization. *)
Theorem callers_are_checked receives env st :
  (is_party env (store st) = false ->
   forall c, (forall b, c <> AdminResolution b) -> c <> ExpireEscrow ->
     call receives env c st = (Err (Require "Not a party"), st))
  /\ (msg_sender env <> admin (store st) ->
      forall b, call receives env (AdminResolution b) st
                = (Err (Require "Only admin"), st))
  /\ (block_timestamp env < expiryTime (store st) ->
      msg_sender env = seller (store st) ->
      msg_sender env <> buyer (store st) ->
      call receives env ConfirmDelivery st
      = (Err (Require "Only buyer can confirm"), st)
      /\ call receives env RequestRefund st
         = (Err (Require "Only buyer can refund"), st))
  /\ (block_timestamp env < expiryTime (store st) ->
      msg_sender env = buyer (store st) ->
      msg_sender env <> seller (store st) ->
      call receives env ConfirmPayment st
      = (Err (Require "Only seller can confirm"), st))
  /\ Forall (fun reason => reason_kind reason = Unauthorized)
       ["Not a party"; "Only admin"; "Only buyer can confirm";
        "Only buyer can refund"; "Only seller can confirm"]%string.
Proof.
  split; [|split; [|split; [|split]]].
  - unfold is_party. intros Hp c Hadm Hexp.
    destruct c; try (exfalso; eapply Hadm; reflexivity);
      try (exfalso; apply Hexp; reflexivity);
      exec ltac:(first [reflexivity | contra]); contra.
  - intros Ha b. exec ltac:(first [reflexivity | contra]); contra.
  - intros Hn Hs Hb. split;
      exec ltac:(first [reflexivity | contra]); contra.
  - intros Hn Hb Hs. exec ltac:(first [reflexivity | contra]); contra.
  - repeat constructor.
Qed.

Lemma callers_are_checked_witness :
  call (fun _ => true) (at_ 3 5) RaiseDispute (sample AWAITING_DELIVERY false)
  = (Err (Require "Not a party"), sample AWAITING_DELIVERY false)
  /\ call (fun _ => true) (at_ 2 5) RequestRefund
       (sample AWAITING_DELIVERY false)
     = (Err (Require "Only buyer can refund"), sample AWAITING_DELIVERY false).
Proof.
  destruct (callers_are_checked (fun _ => true) (at_ 3 5)
              (sample AWAITING_DELIVERY false)) as (H1 & _).
  destruct (callers_are_checked (fun _ => true) (at_ 2 5)
              (sample AWAITING_DELIVERY false)) as (_ & _ & H3 & _).
  split.
  - apply H1; [reflexivity | discriminate | discriminate].
  - apply H3; [simpl; lia | reflexivity | discriminate].
Defined.

(** What one call does to the approvals. *)
Lemma call_approvals receives env c st :
  let s := store st in
  let s' := store (snd (call receives env c st)) in
  (buyerApproved s' = buyerApproved s
   \/ (buyerApproved s' = true /\ msg_sender env = buyer s
       /\ requireMultiSig s = true))
  /\ (sellerApproved s' = sellerApproved s
      \/ (sellerApproved s' = true /\ msg_sender env = seller s
          /\ requireMultiSig s = true)).
Proof.
  destruct c; exec ltac:(split; left; reflexivity);
    reflect_hyps; intuition congruence.
Qed.

(** X7: Approvals over any sequence of calls: an approval given is never taken
    back; the approval of the buyer (of the seller) changes only in a call
    sent by the buyer (by the seller); and a single-approval agreement never
    records an approval. *)
Theorem approvals_only_grow receives self txs st :
  let s := store st in
  let s' := store (run receives self txs st) in
  (buyerApproved s = true -> buyerApproved s' = true)
  /\ (sellerApproved s = true -> sellerApproved s' = true)
  /\ (Forall (fun tx => fst (fst tx) <> buyer s) txs ->
      buyerApproved s' = buyerApproved s)
  /\ (Forall (fun tx => fst (fst tx) <> seller s) txs ->
      sellerApproved s' = sellerApproved s)
  /\ (requireMultiSig s = false ->
      buyerApproved s' = buyerApproved s
      /\ sellerApproved s' = sellerApproved s).
Proof.
  cbv zeta. revert st.
  induction txs as [|[[sender now] c] rest IH]; intros st.
  - repeat split; auto.
  - rewrite run_cons.
    set (env := {| msg_sender := sender; block_timestamp := now;
                   this := self |}).
    pose proof (call_approvals receives env c st) as [Hb Hs].
    pose proof (call_same_terms receives env c st)
      as (_ & Hbuy & Hsel & _ & _ & _ & Hmul).
    specialize (IH (snd (call receives env c st))).
    cbv zeta in Hb, Hs.
    destruct IH as (IHb & IHs & IHnb & IHns & IHsingle).
    rewrite Hbuy, Hsel, Hmul in *. cbn [msg_sender env] in *.
    split; [|split; [|split; [|split]]].
    + intros H. apply IHb. destruct Hb as [-> | [-> _]]; auto.
    + intros H. apply IHs. destruct Hs as [-> | [-> _]]; auto.
    + intros Hall. apply Forall_cons in Hall as [Hne Hall].
      rewrite (IHnb Hall). destruct Hb as [-> | (_ & Heq & _)]; auto.
      contradiction.
    + intros Hall. apply Forall_cons in Hall as [Hne Hall].
      rewrite (IHns Hall). destruct Hs as [-> | (_ & Heq & _)]; auto.
      contradiction.
    + intros Hm. destruct (IHsingle Hm) as [-> ->].
      destruct Hb as [-> | (_ & _ & Hb)], Hs as [-> | (_ & _ & Hs)];
        try congruence. auto.
Qed.

Lemma approvals_only_grow_witness :
  let st := sample AWAITING_DELIVERY true in
  let st' := run (fun _ => true) 9
               [(2%N, 5, ConfirmPayment); (2%N, 6, ConfirmDelivery);
                (3%N, 7, ConfirmDelivery)] st in
  buyerApproved (store st') = false /\ sellerApproved (store st') = true.
Proof.
  intros st st'. split; [|reflexivity].
  destruct (approvals_only_grow (fun _ => true) 9
              [(2%N, 5, ConfirmPayment); (2%N, 6, ConfirmDelivery);
               (3%N, 7, ConfirmDelivery)] st) as (_ & _ & H & _).
  apply H. repeat constructor; simpl; discriminate.
Defined.

(** What one call does to the state. *)
Lemma call_may_follow receives env c st :
  may_follow (currentState (store st))
    (currentState (store (snd (call receives env c st)))) = true.
Proof.
  destruct c;
    exec ltac:(destruct (currentState (store st)); reflexivity);
    reflect_hyps;
    repeat match goal with
    | H : currentState _ = _ |- _ => rewrite H
    end;
    first [reflexivity | destruct (currentState (store st)); reflexivity].
Qed.

Lemma may_follow_trans a b c :
  may_follow a b = true -> may_follow b c = true -> may_follow a c = true.
Proof. destruct a, b, c; simpl; congruence. Qed.

(** X8: The states of an agreement over any sequence of calls follow the arrows
    from AWAITING_DELIVERY to any state and from DISPUTED to COMPLETE only:
    COMPLETE and REFUNDED are never left, a disputed agreement never awaits
    delivery again and never becomes REFUNDED, and REFUNDED and DISPUTED are
    reached from AWAITING_DELIVERY only. *)
Theorem states_follow_the_arrows receives self txs st :
  let before := currentState (store st) in
  let after := currentState (store (run receives self txs st)) in
  may_follow before after = true
  /\ (before = DISPUTED -> after = DISPUTED \/ after = COMPLETE)
  /\ (after = AWAITING_DELIVERY -> before = AWAITING_DELIVERY)
  /\ (after = REFUNDED -> before = AWAITING_DELIVERY \/ before = REFUNDED)
  /\ (after = DISPUTED -> before = AWAITING_DELIVERY \/ before = DISPUTED).
Proof.
  intros before after.
  assert (H : may_follow before after = true).
  { subst before after. revert st.
    induction txs as [|[[sender now] c] rest IH]; intros st.
    - simpl. destruct (currentState (store st)); reflexivity.
    - rewrite run_cons.
      eapply may_follow_trans; [apply call_may_follow | apply IH]. }
  split; [exact H|].
  destruct before, after; simpl in H; try discriminate;
    repeat split; intros; try discriminate; auto.
Qed.

Lemma payouts_app lg lg' :
  payouts (lg ++ lg') = (payouts lg + payouts lg')%nat.
Proof. unfold payouts. rewrite filter_app, length_app. reflexivity. Qed.

Lemma payouts_zero lg e :
  payouts lg = 0%nat -> e ∈ lg -> is_payout e = false.
Proof.
  unfold payouts. intros H He.
  destruct (is_payout e) eqn:Hp; [|reflexivity].
  assert (Hin : e ∈ filter (fun e => is_payout e = true) lg)
    by (apply list_elem_of_filter; split; assumption).
  destruct (filter _ lg); [inversion Hin | discriminate].
Qed.

Lemma payouts_pos lg :
  (0 < payouts lg)%nat -> exists e, e ∈ lg /\ is_payout e = true.
Proof.
  unfold payouts. intros H.
  destruct (filter (fun e => is_payout e = true) lg) as [|e rest] eqn:Hf;
    [simpl in H; lia|].
  exists e.
  assert (Hin : e ∈ filter (fun e => is_payout e = true) lg)
    by (rewrite Hf; left).
  apply list_elem_of_filter in Hin as [Hp Hin]. split; assumption.
Qed.

Ltac log_facts :=
  repeat match goal with
  | |- _ /\ _ => split
  | |- context [payouts (_ ++ _)] => rewrite payouts_app
  end.

(** Every call keeps the log in agreement with the state. *)
Lemma call_log_agrees receives env c st :
  log_agrees st -> log_agrees (snd (call receives env c st)).
Proof.
  intros H.
  destruct c; exec ltac:(exact H); try exact H;
    reflect_hyps; unfold log_agrees in *; proj;
    match goal with
    | Hs : currentState (store st) = _ |- _ => rewrite Hs in H
    end;
    try (match goal with
         | Hs : currentState (store st) = _ |- _ => rewrite Hs
         end);
    log_facts; rewrite ?H; try reflexivity; try (simpl; lia).
  all: pose proof (payouts_zero _ RefundIssued H) as HR;
    pose proof (payouts_zero _ FundsReleased H) as HF; simpl in HR, HF;
    rewrite ?elem_of_app, ?elem_of_cons, ?elem_of_nil;
    intuition discriminate.
Qed.

Lemma run_log_agrees receives self txs st :
  log_agrees st -> log_agrees (run receives self txs st).
Proof.
  revert st. induction txs as [|[[sender now] c] rest IH]; intros st H.
  - exact H.
  - rewrite run_cons. apply IH, call_log_agrees, H.
Qed.

(** A call only appends to the log. *)
Lemma call_log_grows receives env c st :
  log st `prefix_of` log (snd (call receives env c st)).
Proof.
  destruct c; exec ltac:(reflexivity); try reflexivity;
    rewrite <- ?app_assoc; apply prefix_app_r; reflexivity.
Qed.

(** X9: Over any sequence of calls on an agreement that awaits delivery with no
    payout logged (as a new agreement does), the log only grows and holds at
    most one payout event; FundsReleased is logged only when the agreement is
    COMPLETE, and RefundIssued exactly when it is REFUNDED. *)
Theorem payout_logged_once receives self txs st :
  currentState (store st) = AWAITING_DELIVERY ->
  payouts (log st) = 0%nat ->
  let st' := run receives self txs st in
  log st `prefix_of` log st'
  /\ (payouts (log st') <= 1)%nat
  /\ (FundsReleased ∈ log st' -> currentState (store st') = COMPLETE)
  /\ (RefundIssued ∈ log st' <-> currentState (store st') = REFUNDED).
Proof.
  intros Hs Hp st'. split.
  { subst st'. clear Hs Hp. revert st.
    induction txs as [|[[sender now] c] rest IH]; intros st; [reflexivity|].
    rewrite run_cons. etrans; [apply call_log_grows | apply IH]. }
  assert (H : log_agrees st') by
    (apply run_log_agrees; unfold log_agrees; rewrite Hs; exact Hp).
  unfold log_agrees in H.
  destruct (currentState (store st')) eqn:Hs'.
  - pose proof (payouts_zero _ FundsReleased H) as HF.
    pose proof (payouts_zero _ RefundIssued H) as HR. simpl in HF, HR.
    rewrite H. repeat split; try lia; intros; try discriminate;
      exfalso; auto using Bool.diff_true_false.
  - destruct H as [H1 H2]. repeat split; try assumption; try reflexivity;
      intros; try discriminate; contradiction.
  - destruct H as [H1 H2]. rewrite H1.
    repeat split; try lia; try reflexivity; try contradiction.
    intros _. destruct (payouts_pos (log st')) as (e & Hin & He); [lia|].
    destruct e; try discriminate; [contradiction | exact Hin].
  - pose proof (payouts_zero _ FundsReleased H) as HF.
    pose proof (payouts_zero _ RefundIssued H) as HR. simpl in HF, HR.
    rewrite H. repeat split; try lia; intros; try discriminate;
      exfalso; auto using Bool.diff_true_false.
Qed.

Lemma payout_logged_once_witness :
  let st' := run (fun _ => true) 9
               [(1%N, 5, ConfirmDelivery); (2%N, 6, ConfirmPayment);
                (1%N, 7, RequestRefund); (7%N, 100, ExpireEscrow)]
               (sample AWAITING_DELIVERY true) in
  (payouts (log st') <= 1)%nat /\ FundsReleased ∈ log st'.
Proof.
  intros st'.
  destruct (payout_logged_once (fun _ => true) 9
              [(1%N, 5, ConfirmDelivery); (2%N, 6, ConfirmPayment);
               (1%N, 7, RequestRefund); (7%N, 100, ExpireEscrow)]
              (sample AWAITING_DELIVERY true) eq_refl eq_refl)
    as (_ & H & _).
  split; [exact H|].
  vm_compute. repeat constructor.
Defined.

(** One call on an open agreement that holds its deposit, at an address that
    is none of the payees: the contract holds the deposit while the agreement
    stays open and nothing once it is closed. *)
Lemma call_drains receives env c st :
  this env <> buyer (store st) ->
  this env <> seller (store st) ->
  this env <> admin (store st) ->
  terminal (currentState (store st)) = false ->
  Ledger.balanceOf (ledger st) (this env) = amount (store st) ->
  let st' := snd (call receives env c st) in
  Ledger.balanceOf (ledger st') (this env)
  = if terminal (currentState (store st')) then 0 else amount (store st).
Proof.
  intros Hb Hs Ha Ht Hc.
  assert (Hkeep : Ledger.balanceOf (ledger st) (this env)
                  = if terminal (currentState (store st)) then 0
                    else amount (store st)) by (rewrite Ht; exact Hc).
  destruct c; exec ltac:(exact Hkeep); try exact Hkeep;
    reflect_hyps;
    repeat match goal with
    | H : Ledger.transfer _ _ _ _ _ = Some _ |- _ =>
        apply transfer_move in H;
        let Hbal := fresh "Hbal" in
        pose proof (move_balanceOf _ _ _ _ _ H (this env)) as Hbal;
        clear H
    end;
    repeat match goal with
    | H : currentState (store st) = _ |- _ => rewrite H in *
    end;
    cbn [terminal] in *;
    repeat match goal with
    | H : context [decide (?a = ?b)] |- _ => destruct (decide (a = b))
    end;
    try congruence; try lia.
Qed.

(** X10: From an open agreement that holds its deposit, at an address that is
    none of the payees, over any sequence of calls: the contract holds
    exactly the deposit as long as the agreement is open, and is empty once
    the agreement is COMPLETE or REFUNDED: no part of the deposit is left in
    the contract. *)
Theorem deposit_held_then_drained receives self txs st :
  self <> buyer (store st) ->
  self <> seller (store st) ->
  self <> admin (store st) ->
  terminal (currentState (store st)) = false ->
  Ledger.balanceOf (ledger st) self = amount (store st) ->
  let st' := run receives self txs st in
  Ledger.balanceOf (ledger st') self
  = if terminal (currentState (store st')) then 0 else amount (store st).
Proof.
  revert st. induction txs as [|[[sender now] c] rest IH];
    intros st Hb Hs Ha Ht Hc st'; subst st'.
  - simpl. rewrite Ht. exact Hc.
  - rewrite run_cons.
    set (env := {| msg_sender := sender; block_timestamp := now;
                   this := self |}).
    pose proof (call_drains receives env c st Hb Hs Ha Ht Hc) as Hcall.
    pose proof (call_same_terms receives env c st)
      as (Hadm & Hbuy & Hsel & _ & _ & Hamt & _).
    cbv zeta in Hcall. cbn [this env] in Hcall.
    destruct (terminal (currentState (store (snd (call receives env c st)))))
      eqn:Hmid.
    + rewrite (run_terminal _ _ _ _ Hmid), Hmid. exact Hcall.
    + rewrite <- Hamt. apply IH; congruence.
Qed.

Lemma deposit_held_then_drained_witness :
  let st' := run (fun _ => true) 9
               [(2%N, 5, RaiseDispute); (3%N, 500, AdminResolution true)]
               (sample AWAITING_DELIVERY false) in
  Ledger.balanceOf (ledger st') 9 = 0.
Proof.
  intros st'.
  apply (deposit_held_then_drained (fun _ => true) 9
           [(2%N, 5, RaiseDispute); (3%N, 500, AdminResolution true)]
           (sample AWAITING_DELIVERY false));
    first [discriminate | reflexivity].
Defined.

(** With a fee above the deposit a call pays nobody but the buyer. *)
Lemma call_pays_buyer_only receives env c st a :
  amount (store st) < adminFee (store st) ->
  a <> buyer (store st) ->
  a <> this env ->
  Ledger.balanceOf (ledger (snd (call receives env c st))) a
  = Ledger.balanceOf (ledger st) a.
Proof.
  intros Hfee Hb Hself.
  destruct c; exec ltac:(first [reflexivity | contra]);
    try reflexivity; try contra;
    repeat match goal with
    | H : Ledger.transfer _ _ _ _ _ = Some _ |- _ =>
        apply transfer_move in H;
        rewrite (move_balanceOf _ _ _ _ _ H a); clear H
    end;
    repeat destruct (decide _); congruence || lia.
Qed.

(** X11: When the fee stored exceeds the deposit (a registry deployed with more
    than 10000 basis points), the subtraction in a release leaves the range:
    a confirmation that would release, and [adminResolution(true)], revert
    with a panic and change nothing; over any sequence of calls no account
    other than the buyer's and the contract's changes, so the seller and the
    admin are never paid and the deposit can only go back to the buyer. *)
Theorem fee_above_deposit_blocks_release receives self st :
  amount (store st) < adminFee (store st) ->
  (forall env c,
     fires env c (store st) = true ->
     c = ConfirmDelivery \/ c = ConfirmPayment \/ c = AdminResolution true ->
     call receives env c st = (Err Panic, st)
     /\ error_kind Panic = Overflow)
  /\ (forall txs a,
        a <> buyer (store st) ->
        a <> self ->
        Ledger.balanceOf (ledger (run receives self txs st)) a
        = Ledger.balanceOf (ledger st) a).
Proof.
  intros Hfee. split.
  - intros env c Hf Hc. split; [|reflexivity].
    unfold fires in Hf.
    destruct Hc as [-> | [-> | ->]];
      cbn [entitled timely source_state approved] in Hf;
      exec ltac:(contra); try contra; reflexivity.
  - intros txs a Hb Hself. revert st Hfee Hb.
    induction txs as [|[[sender now] c] rest IH]; intros st Hfee Hb;
      [reflexivity|].
    rewrite run_cons.
    set (env := {| msg_sender := sender; block_timestamp := now;
                   this := self |}).
    pose proof (call_same_terms receives env c st)
      as (_ & Hbuy & _ & _ & Hf & Hamt & _).
    rewrite IH by congruence.
    apply call_pays_buyer_only; assumption.
Qed.

Lemma fee_above_deposit_blocks_release_witness :
  let st := {| store := {| admin := 3; buyer := 1; seller := 2;
                           expiryTime := 100; adminFee := 2000;
                           amount := 1000;
                           currentState := AWAITING_DELIVERY;
                           requireMultiSig := false; buyerApproved := false;
                           sellerApproved := false |};
               ledger := {[ 9%N := 1000 ]}; log := [] |} in
  call (fun _ => true) (at_ 1 5) ConfirmDelivery st = (Err Panic, st)
  /\ Ledger.balanceOf
       (ledger (run (fun _ => true) 9
                  [(1%N, 5, ConfirmDelivery); (1%N, 6, RequestRefund)] st)) 2
     = 0.
Proof.
  intros st.
  assert (Hfee : amount (store st) < adminFee (store st))
    by (vm_compute; reflexivity).
  destruct (fee_above_deposit_blocks_release (fun _ => true) 9 st Hfee)
    as [H1 H2].
  split.
  - apply H1; [reflexivity | left; reflexivity].
  - rewrite H2; [reflexivity | discriminate | discriminate].
Defined.

Lemma states_follow_the_arrows_witness :
  let st' := run (fun _ => true) 9
               [(3%N, 5, AdminResolution false); (7%N, 200, ExpireEscrow);
                (1%N, 6, RequestRefund)] (sample DISPUTED false) in
  currentState (store st') = DISPUTED \/ currentState (store st') = COMPLETE.
Proof.
  intros st'.
  destruct (states_follow_the_arrows (fun _ => true) 9
              [(3%N, 5, AdminResolution false); (7%N, 200, ExpireEscrow);
               (1%N, 6, RequestRefund)] (sample DISPUTED false))
    as (_ & H & _).
  apply H. reflexivity.
Defined.

(** At or after the expiry, a call on an agreement awaiting delivery either
    changes nothing or is a successful [expireEscrow]. *)
Lemma expired_call receives env c st :
  currentState (store st) = AWAITING_DELIVERY ->
  expiryTime (store st) <= block_timestamp env ->
  snd (call receives env c st) = st
  \/ (c = ExpireEscrow
      /\ currentState (store (snd (call receives env c st))) = REFUNDED).
Proof.
  intros Hs Hn.
  destruct c; exec ltac:(first [left; reflexivity | contra]);
    try (left; reflexivity); try contra.
  right. split; reflexivity.
Qed.

(** X12: Once the expiry has passed on an agreement that still awaits delivery,
    no confirmation, refund request, dispute or resolution has any effect:
    over any sequence of calls made at or after the expiry the state is
    either untouched or REFUNDED by [expireEscrow]; the agreement is never
    completed or disputed. *)
Theorem after_expiry_only_refund receives self txs st :
  currentState (store st) = AWAITING_DELIVERY ->
  Forall (fun tx => expiryTime (store st) <= snd (fst tx)) txs ->
  let st' := run receives self txs st in
  st' = st
  \/ (currentState (store st') = REFUNDED
      /\ exists sender now, (sender, now, ExpireEscrow) ∈ txs).
Proof.
  intros Hs Hall st'. subst st'.
  induction txs as [|[[sender now] c] rest IH]; [left; reflexivity|].
  apply Forall_cons in Hall as [Hnow Hrest]. simpl in Hnow.
  rewrite run_cons.
  destruct (expired_call receives
              {| msg_sender := sender; block_timestamp := now; this := self |}
              c st Hs Hnow) as [-> | [-> Href]].
  - destruct (IH Hrest) as [-> | (Hr & s' & n' & Hin)]; [left; reflexivity|].
    right. split; [exact Hr|]. exists s', n'. right. exact Hin.
  - right. rewrite run_terminal by (rewrite Href; reflexivity).
    split; [exact Href|]. exists sender, now. left.
Qed.

Lemma after_expiry_only_refund_witness :
  run (fun _ => true) 9
    [(1%N, 100, ConfirmDelivery); (2%N, 101, RaiseDispute);
     (3%N, 102, AdminResolution true)]
    (sample AWAITING_DELIVERY false)
  = sample AWAITING_DELIVERY false.
Proof.
  destruct (after_expiry_only_refund (fun _ => true) 9
              [(1%N, 100, ConfirmDelivery); (2%N, 101, RaiseDispute);
               (3%N, 102, AdminResolution true)]
              (sample AWAITING_DELIVERY false) eq_refl) as [H | [H _]].
  - repeat constructor; simpl; lia.
  - exact H.
  - discriminate H.
Defined.

End MoreAgreement.

(** * Further properties of the registry *)

Module MoreRegistry.
Import EscrowFactory LedgerFacts FactoryFacts Registry.

(** The result of [createEscrow]: the deposit is moved from the caller to
    the factory and on to the new contract, the agreement is constructed and
    its address listed; a failure of any step reverts the call. *)
Lemma createEscrow_result env value created _seller days multi st :
  external_call (createEscrow env value created _seller days multi) st
  = match Ledger.move (msg_sender env) (this env) value (ledger st) with
    | None => (Err TransferFailed, st)
    | Some l1 =>
        if 0 <? value then
          match Ledger.move (this env) created value l1 with
          | None => (Err TransferFailed, st)
          | Some l2 =>
              match Escrow.constructor (block_timestamp env) value
                      (msg_sender env) _seller (admin (store st)) days multi
                      (adminFeePercentage (store st)) st with
              | (Ok s0, _) =>
                  (Ok (created, s0),
                   {| store := push_allEscrows created (store st);
                      ledger := l2;
                      log := log st ++
                        [EscrowCreated
                           (Z.of_nat (length (allEscrows (store st))))
                           (msg_sender env) _seller created] |})
              | (Err e, _) => (Err e, st)
              end
          end
        else (Err (Require "Must send ETH to create escrow"), st)
    end.
Proof.
  unfold external_call, createEscrow.
  rewrite run_pay.
  destruct (Ledger.move (msg_sender env) (this env) value (ledger st))
    as [l1|]; [|reflexivity].
  rewrite run_require. destruct (0 <? value); [|reflexivity].
  rewrite !factory_run_read, run_pay. proj.
  destruct (Ledger.move (this env) created value l1) as [l2|];
    [|reflexivity].
  rewrite run_constructor, !constructor_result.
  destruct (value * _ <=? MAX_UINT256); [|reflexivity].
  destruct (days * 86400 <=? MAX_UINT256); [|reflexivity].
  destruct (_ + days * 86400 <=? MAX_UINT256); [|reflexivity].
  rewrite factory_run_write, factory_run_read, run_checked_sub. proj.
  rewrite length_app, Nat2Z.inj_add. simpl length.
  change (Z.of_nat 1) with 1.
  destruct (Z.leb_spec 1 (Z.of_nat (length (allEscrows (store st))) + 1));
    [|lia].
  rewrite factory_run_emit. unfold ret.
  replace (Z.of_nat (length (allEscrows (store st))) + 1 - 1)
    with (Z.of_nat (length (allEscrows (store st)))) by lia.
  reflexivity.
Qed.

Lemma changeAdmin_result env a st :
  external_call (changeAdmin env a) st
  = if (msg_sender env =? admin (store st))%N then
      (Ok tt, {| store := set_admin a (store st); ledger := ledger st;
                 log := log st ++ [AdminChanged a] |})
    else (Err (Require "Only admin"), st).
Proof.
  unfold external_call, changeAdmin.
  rewrite factory_run_read, run_require.
  destruct (msg_sender env =? admin (store st))%N; [|reflexivity].
  rewrite factory_run_write. reflexivity.
Qed.

Lemma withdrawFees_result receives env st :
  external_call (withdrawFees receives env) st
  = match Ledger.transfer receives (this env) (admin (store st))
            (Ledger.balanceOf (ledger st) (this env)) (ledger st) with
    | Some l' => (Ok tt, {| store := store st; ledger := l'; log := log st |})
    | None => (Err TransferFailed, st)
    end.
Proof.
  unfold external_call, withdrawFees.
  rewrite factory_run_read. proj.
  destruct (Ledger.transfer _ _ _ _ _); reflexivity.
Qed.

(** The result of a call to the factory, function by function. *)
Lemma call_result receives env c st :
  call receives env c st
  = match c with
    | CreateEscrow value created _seller days multi =>
        match external_call
                (createEscrow env value created _seller days multi) st with
        | (Ok _, st') => (Ok tt, st')
        | (Err e, st') => (Err e, st')
        end
    | ChangeAdmin a => external_call (changeAdmin env a) st
    | SetFeePercentage v => external_call (setFeePercentage env v) st
    | WithdrawFees => external_call (withdrawFees receives env) st
    end.
Proof.
  destruct c; try reflexivity.
  unfold call, body, external_call, bind, ret.
  destruct (createEscrow _ _ _ _ _ _ st) as [[[]|] ?]; reflexivity.
Qed.

(** X13: [createEscrow] case by case, for a caller other than the factory and a
    factory balance that is not negative.  It reverts, leaving the ledger,
    the list of agreements and the log as they were: with the failure of the
    payment when the caller holds less than the value sent; with the message
    of the value check when the value is zero; with a panic when the fee
    product or the expiry time leaves the 256-bit range.  Otherwise it
    succeeds: the value leaves the caller's account for the new contract's,
    the factory's balance is unchanged, and the address is appended to the
    list of agreements. *)
Theorem createEscrow_cases env value created _seller days multi st :
  0 <= Ledger.balanceOf (ledger st) (this env) ->
  msg_sender env <> this env ->
  let r := external_call
             (createEscrow env value created _seller days multi) st in
  let funds := Ledger.balanceOf (ledger st) (msg_sender env) in
  let fits :=
    value * adminFeePercentage (store st) <= MAX_UINT256
    /\ days * 86400 <= MAX_UINT256
    /\ block_timestamp env + days * 86400 <= MAX_UINT256 in
  (funds < value -> r = (Err TransferFailed, st))
  /\ (value <= funds -> value <= 0 ->
      r = (Err (Require "Must send ETH to create escrow"), st))
  /\ (0 < value <= funds -> ~ fits -> r = (Err Panic, st))
  /\ (0 < value <= funds -> fits ->
      exists s0 st',
        r = (Ok (created, s0), st')
        /\ allEscrows (store st') = allEscrows (store st) ++ [created]
        /\ admin (store st') = admin (store st)
        /\ adminFeePercentage (store st') = adminFeePercentage (store st)
        /\ forall a,
             Ledger.balanceOf (ledger st') a
             = Ledger.balanceOf (ledger st) a
               - (if decide (a = msg_sender env) then value else 0)
               + (if decide (a = created) then value else 0)).
Proof.
  intros Hthis Hsender r funds fits. subst r funds fits.
  rewrite createEscrow_result.
  split; [|split; [|split]].
  - intros Hlt. unfold Ledger.move.
    destruct (Z.ltb_spec (Ledger.balanceOf (ledger st) (msg_sender env)) value);
      [reflexivity | lia].
  - intros Hle Hzero. rewrite move_Some by exact Hle.
    destruct (Z.ltb_spec 0 value); [lia | reflexivity].
  - intros [Hpos Hle] Hfits. rewrite move_Some by exact Hle.
    destruct (Z.ltb_spec 0 value); [|lia].
    rewrite move_Some.
    2: { rewrite balanceOf_credit, balanceOf_debit.
         repeat destruct (decide _); try congruence; lia. }
    rewrite constructor_result.
    destruct (Z.leb_spec (value * adminFeePercentage (store st)) MAX_UINT256);
      [|reflexivity].
    destruct (Z.leb_spec (days * 86400) MAX_UINT256); [|reflexivity].
    destruct (Z.leb_spec (block_timestamp env + days * 86400) MAX_UINT256);
      [|reflexivity].
    exfalso. apply Hfits. repeat split; assumption.
  - intros [Hpos Hle] (Hf1 & Hf2 & Hf3). rewrite move_Some by exact Hle.
    destruct (Z.ltb_spec 0 value); [|lia].
    rewrite move_Some.
    2: { rewrite balanceOf_credit, balanceOf_debit.
         repeat destruct (decide _); try congruence; lia. }
    rewrite constructor_result.
    destruct (Z.leb_spec (value * adminFeePercentage (store st)) MAX_UINT256);
      [|lia].
    destruct (Z.leb_spec (days * 86400) MAX_UINT256); [|lia].
    destruct (Z.leb_spec (block_timestamp env + days * 86400) MAX_UINT256);
      [|lia].
    eexists _, _. split; [reflexivity|]. proj.
    repeat split. intros a.
    repeat (rewrite balanceOf_credit || rewrite balanceOf_debit).
    repeat destruct (decide _); try congruence; lia.
Qed.

Lemma createEscrow_cases_witness :
  let st := {| store := constructor 7 250;
               ledger := {[ 1%N := 1000 ]}; log := [] |} in
  let env := {| msg_sender := 1%N; block_timestamp := 10; this := 8%N |} in
  external_call (createEscrow env 1001 9 2 30 false) st
  = (Err TransferFailed, st)
  /\ external_call (createEscrow env 1000 9 2 (2 ^ 250) false) st
     = (Err Panic, st)
  /\ exists s0 st',
       external_call (createEscrow env 1000 9 2 30 false) st
       = (Ok (9%N, s0), st')
       /\ allEscrows (store st') = [9%N].
Proof.
  intros st env.
  assert (Hthis : 0 <= Ledger.balanceOf (ledger st) (this env))
    by (vm_compute; discriminate).
  assert (Hsender : msg_sender env <> this env) by discriminate.
  split; [|split].
  - apply (createEscrow_cases env 1001 9 2 30 false st Hthis Hsender).
    vm_compute. reflexivity.
  - apply (createEscrow_cases env 1000 9 2 (2 ^ 250) false st Hthis Hsender).
    + split; vm_compute; [reflexivity | discriminate].
    + intros (_ & H & _). vm_compute in H. apply H. reflexivity.
  - destruct (createEscrow_cases env 1000 9 2 30 false st Hthis Hsender)
      as (_ & _ & _ & H).
    destruct H as (s0 & st' & Hr & Hall & _).
    + split; vm_compute; [reflexivity | discriminate].
    + repeat split; vm_compute; discriminate.
    + exists s0, st'. split; [exact Hr | exact Hall].
Defined.

Lemma factory_run_cons receives self sender now c rest st :
  run receives self ((sender, now, c) :: rest) st
  = run receives self rest
      (snd (call receives
              {| msg_sender := sender; block_timestamp := now; this := self |}
              c st)).
Proof. reflexivity. Qed.

(** What one call does to the configuration of the factory. *)
Lemma call_configuration receives env c st :
  let s := store st in
  let s' := store (snd (call receives env c st)) in
  (msg_sender env <> admin s ->
   admin s' = admin s /\ adminFeePercentage s' = adminFeePercentage s)
  /\ (adminFeePercentage s <= 500 -> adminFeePercentage s' <= 500).
Proof.
  cbv zeta. rewrite call_result.
  destruct c as [value created _seller days multi | a | v | ].
  - rewrite createEscrow_result.
    repeat match goal with
    | |- context [match ?x with _ => _ end] =>
        lazymatch x with
        | context [match _ with _ => _ end] => fail
        | _ => destruct x eqn:?
        end
    end; proj; auto.
  - rewrite changeAdmin_result.
    destruct (N.eqb_spec (msg_sender env) (admin (store st))); proj;
      split; intros; try contradiction; auto.
  - rewrite setFeePercentage_result.
    destruct (N.eqb_spec (msg_sender env) (admin (store st)));
      destruct (Z.leb_spec v 500); proj;
      split; intros; try contradiction; auto.
  - rewrite withdrawFees_result.
    destruct (Ledger.transfer _ _ _ _ _); proj; auto.
Qed.

(** X14: The configuration of the factory over any sequence of calls: a fee of at
    most 500 basis points stays at most 500, and as long as no call is sent
    by the admin, the admin and the fee stay as they are. *)
Theorem configuration_is_guarded receives self txs st :
  let s := store st in
  let s' := store (run receives self txs st) in
  (adminFeePercentage s <= 500 -> adminFeePercentage s' <= 500)
  /\ (Forall (fun tx => fst (fst tx) <> admin s) txs ->
      admin s' = admin s /\ adminFeePercentage s' = adminFeePercentage s).
Proof.
  cbv zeta. revert st.
  induction txs as [|[[sender now] c] rest IH]; intros st.
  - split; auto.
  - rewrite factory_run_cons.
    set (env := {| msg_sender := sender; block_timestamp := now;
                   this := self |}).
    pose proof (call_configuration receives env c st) as [Hother Hbound].
    cbv zeta in Hother, Hbound.
    destruct (IH (snd (call receives env c st))) as [IHbound IHother].
    split.
    + intros H. apply IHbound, Hbound, H.
    + intros Hall. apply Forall_cons in Hall as [Hne Hall].
      destruct (Hother Hne) as [Ha Hp].
      rewrite Ha in IHother. destruct (IHother Hall) as [H1 H2].
      split; congruence.
Qed.

Lemma configuration_is_guarded_witness :
  let st := {| store := constructor 7 250;
               ledger := {[ 1%N := 1000 ]}; log := [] |} in
  let st' := run (fun _ => true) 8
               [(1%N, 5, SetFeePercentage 0); (1%N, 6, ChangeAdmin 1);
                (1%N, 7, CreateEscrow 1000 9 2 30 false)] st in
  admin (store st') = 7%N /\ adminFeePercentage (store st') = 250.
Proof.
  intros st st'.
  destruct (configuration_is_guarded (fun _ => true) 8
              [(1%N, 5, SetFeePercentage 0); (1%N, 6, ChangeAdmin 1);
               (1%N, 7, CreateEscrow 1000 9 2 30 false)] st) as [_ H].
  apply H. repeat constructor; simpl; discriminate.
Defined.

(** One call from outside to a factory that holds nothing. *)
Lemma call_holds_nothing receives env c st :
  Ledger.balanceOf (ledger st) (this env) = 0 ->
  from_outside (this env) (msg_sender env, block_timestamp env, c) ->
  Ledger.balanceOf (ledger (snd (call receives env c st))) (this env) = 0.
Proof.
  intros Hzero [Hsender Hcreated]. simpl in Hsender, Hcreated.
  rewrite call_result.
  destruct c as [value created _seller days multi | a | v | ].
  - destruct (external_call _ st) as [[[a s0]|e] st'] eqn:Hc.
    + apply createEscrow_Ok in Hc as (_ & _ & _ & l1 & Hin & Hout).
      simpl. rewrite (move_balanceOf _ _ _ _ _ Hout),
        (move_balanceOf _ _ _ _ _ Hin), Hzero.
      repeat destruct (decide _); try congruence; lia.
    + unfold external_call in Hc.
      destruct (createEscrow _ _ _ _ _ _ st) as [[[]|] ?];
        inversion Hc; subst; exact Hzero.
  - rewrite changeAdmin_result.
    destruct (_ =? _)%N; exact Hzero.
  - rewrite setFeePercentage_result.
    destruct (_ =? _)%N; [destruct (_ <=? _)|]; exact Hzero.
  - rewrite withdrawFees_result.
    destruct (Ledger.transfer _ _ _ _ _) as [l'|] eqn:Ht; [|exact Hzero].
    apply transfer_move in Ht. simpl.
    rewrite (move_balanceOf _ _ _ _ _ Ht), Hzero.
    repeat destruct (decide _); lia.
Qed.

(** X15: The factory never holds value: the value sent with [createEscrow] goes on
    to the new contract, and the fees are paid by the agreements to the admin
    directly.  Over any sequence of calls from outside, a factory that holds
    nothing holds nothing, and [withdrawFees] then changes no balance. *)
Theorem factory_holds_nothing receives self txs st :
  Ledger.balanceOf (ledger st) self = 0 ->
  Forall (from_outside self) txs ->
  let st' := run receives self txs st in
  Ledger.balanceOf (ledger st') self = 0
  /\ forall sender now a,
       Ledger.balanceOf
         (ledger (snd (call receives
                         {| msg_sender := sender; block_timestamp := now;
                            this := self |} WithdrawFees st'))) a
       = Ledger.balanceOf (ledger st') a.
Proof.
  intros Hzero Hall st'.
  assert (H : Ledger.balanceOf (ledger st') self = 0).
  { subst st'. revert st Hzero.
    induction Hall as [|[[sender now] c] rest Hout Hrest IH]; intros st Hzero;
      [exact Hzero|].
    rewrite factory_run_cons. apply IH.
    apply (call_holds_nothing receives
             {| msg_sender := sender; block_timestamp := now; this := self |});
      assumption. }
  split; [exact H|].
  intros sender now a. rewrite call_result, withdrawFees_result.
  cbn [this].
  destruct (Ledger.transfer _ _ _ _ _) as [l'|] eqn:Ht; [|reflexivity].
  apply transfer_move in Ht. simpl.
  rewrite (move_balanceOf _ _ _ _ _ Ht), H.
  repeat destruct (decide _); lia.
Qed.

Lemma factory_holds_nothing_witness :
  let st := {| store := constructor 7 250;
               ledger := {[ 1%N := 1000 ]}; log := [] |} in
  let st' := run (fun _ => true) 8
               [(1%N, 5, CreateEscrow 400 9 2 30 false);
                (7%N, 6, SetFeePercentage 100);
                (1%N, 7, CreateEscrow 600 10 2 0 true)] st in
  Ledger.balanceOf (ledger st') 8 = 0.
Proof.
  intros st st'.
  assert (Hzero : Ledger.balanceOf (ledger st) 8 = 0) by reflexivity.
  assert (Hall : Forall (from_outside 8)
           [(1%N, 5, CreateEscrow 400 9 2 30 false);
            (7%N, 6, SetFeePercentage 100);
            (1%N, 7, CreateEscrow 600 10 2 0 true)]).
  { repeat constructor; discriminate. }
  pose proof (factory_holds_nothing (fun _ => true) 8 _ st Hzero Hall) as H.
  exact (proj1 H).
Defined.

(** A call to the factory conserves the sum of the balances and leaves no
    balance negative. *)
Lemma call_conserves receives env c st :
  let st' := snd (call receives env c st) in
  Ledger.total (ledger st') = Ledger.total (ledger st)
  /\ (Ledger.non_negative (ledger st) -> Ledger.non_negative (ledger st')).
Proof.
  cbv zeta. rewrite call_result.
  destruct c as [value created _seller days multi | a | v | ].
  - destruct (external_call _ st) as [[[a s0]|e] st'] eqn:Hc.
    + pose proof (createEscrow_total _ _ _ _ _ _ _ _ _ Hc) as Htot.
      apply createEscrow_Ok in Hc as (Hpos & _ & _ & l1 & Hin & Hout).
      split; [exact Htot|]. intros Hl. simpl.
      assert (Hv : 0 <= value) by lia.
      exact (move_non_negative _ _ _ _ _ Hv
               (move_non_negative _ _ _ _ _ Hv Hl Hin) Hout).
    + unfold external_call in Hc.
      destruct (createEscrow _ _ _ _ _ _ st) as [[[]|] ?];
        inversion Hc; subst; auto.
  - rewrite changeAdmin_result. destruct (_ =? _)%N; auto.
  - rewrite setFeePercentage_result.
    destruct (_ =? _)%N; [destruct (_ <=? _)|]; auto.
  - rewrite withdrawFees_result.
    destruct (Ledger.transfer _ _ _ _ _) as [l'|] eqn:Ht; [|auto].
    apply transfer_move in Ht. simpl. split.
    + apply (move_total _ _ _ _ _ Ht).
    + intros Hl. apply (move_non_negative _ _ _ _ _ (Hl _) Hl Ht).
Qed.

(** X16: Over any sequence of calls to the factory the sum of all balances is
    conserved, a deposit being only moved from its sender to the new
    contract, and no balance becomes negative. *)
Theorem factory_conserves_value receives self txs st :
  let st' := run receives self txs st in
  Ledger.total (ledger st') = Ledger.total (ledger st)
  /\ (Ledger.non_negative (ledger st) -> Ledger.non_negative (ledger st')).
Proof.
  cbv zeta. revert st.
  induction txs as [|[[sender now] c] rest IH]; intros st; [auto|].
  rewrite factory_run_cons.
  set (env := {| msg_sender := sender; block_timestamp := now;
                 this := self |}).
  destruct (call_conserves receives env c st) as [Ht Hn].
  destruct (IH (snd (call receives env c st))) as [IHt IHn].
  split; [congruence | auto].
Qed.

(** What one call does to the list of agreements and to the log. *)
Lemma call_lists receives env c st :
  let st' := snd (call receives env c st) in
  allEscrows (store st) `prefix_of` allEscrows (store st')
  /\ (log_indexes_list st -> log_indexes_list st').
Proof.
  cbv zeta. rewrite call_result.
  destruct c as [value created _seller days multi | a | v | ].
  - rewrite createEscrow_result.
    repeat match goal with
    | |- context [match ?x with _ => _ end] =>
        lazymatch x with
        | context [match _ with _ => _ end] => fail
        | _ => destruct x eqn:?
        end
    end; proj; try (split; [reflexivity | auto]).
    split; [apply prefix_app_r; reflexivity|].
    intros Hinv eid eb es ea Hin.
    unfold log_indexes_list in Hinv. proj.
    apply elem_of_app in Hin as [Hin | Hin].
    + destruct (Hinv _ _ _ _ Hin) as [Hpos Hlook].
      split; [exact Hpos|]. apply lookup_app_l_Some. exact Hlook.
    + apply list_elem_of_singleton in Hin. injection Hin as -> _ _ ->.
      split; [lia|]. rewrite Nat2Z.id.
      rewrite lookup_app_r by lia. rewrite Nat.sub_diag. reflexivity.
  - rewrite changeAdmin_result. destruct (_ =? _)%N; proj;
      (split; [reflexivity|]); auto.
    intros Hinv eid eb es ea Hin. unfold log_indexes_list in Hinv. proj.
    apply elem_of_app in Hin as [Hin | Hin]; [eauto|].
    apply list_elem_of_singleton in Hin. discriminate.
  - rewrite setFeePercentage_result.
    destruct (_ =? _)%N; [destruct (_ <=? _)|]; proj;
      (split; [reflexivity|]); auto.
    intros Hinv eid eb es ea Hin. unfold log_indexes_list in Hinv. proj.
    apply elem_of_app in Hin as [Hin | Hin]; [eauto|].
    apply list_elem_of_singleton in Hin. discriminate.
  - rewrite withdrawFees_result.
    destruct (Ledger.transfer _ _ _ _ _); proj; (split; [reflexivity|]); auto.
Qed.

(** X17: The list of agreements over any sequence of calls to a factory whose log
    is empty (as at deployment): the list is only extended at its end, and
    every [EscrowCreated] event logged carries the index at which
    [getAllEscrows] returns the address of the event. *)
Theorem events_index_the_list receives self txs st :
  log st = [] ->
  let st' := run receives self txs st in
  allEscrows (store st) `prefix_of` allEscrows (store st')
  /\ forall escrowId b s a,
       EscrowCreated escrowId b s a ∈ log st' ->
       exists all,
         getAllEscrows st' = (Ok all, st')
         /\ 0 <= escrowId
         /\ all !! Z.to_nat escrowId = Some a.
Proof.
  intros Hlog st'.
  assert (Hinv : log_indexes_list st).
  { intros escrowId b s a Hin. rewrite Hlog in Hin. inversion Hin. }
  clear Hlog.
  assert (H : allEscrows (store st) `prefix_of` allEscrows (store st')
              /\ log_indexes_list st').
  { subst st'. revert st Hinv.
    induction txs as [|[[sender now] c] rest IH]; intros st Hinv;
      [split; [reflexivity | exact Hinv]|].
    rewrite factory_run_cons.
    set (env := {| msg_sender := sender; block_timestamp := now;
                   this := self |}).
    destruct (call_lists receives env c st) as [Hpre Hkeep].
    destruct (IH _ (Hkeep Hinv)) as [IHpre IHinv].
    split; [etrans; eassumption | exact IHinv]. }
  destruct H as [Hpre Hinv'].
  split; [exact Hpre|].
  intros escrowId b s a Hin.
  exists (allEscrows (store st')). split; [reflexivity|].
  exact (Hinv' _ _ _ _ Hin).
Qed.

Lemma events_index_the_list_witness :
  let st := {| store := constructor 7 250;
               ledger := {[ 1%N := 1000 ]}; log := [] |} in
  let st' := run (fun _ => true) 8
               [(1%N, 5, CreateEscrow 400 9 2 30 false);
                (1%N, 7, CreateEscrow 600 10 2 0 true)] st in
  exists all,
    getAllEscrows st' = (Ok all, st')
    /\ all !! Z.to_nat 1 = Some 10%N.
Proof.
  intros st st'.
  pose proof (events_index_the_list (fun _ => true) 8
                [(1%N, 5, CreateEscrow 400 9 2 30 false);
                 (1%N, 7, CreateEscrow 600 10 2 0 true)] st eq_refl) as [_ H].
  destruct (H 1 1%N 2%N 10%N) as (all & Hget & _ & Hlook).
  - vm_compute. right. left.
  - exists all. split; assumption.
Defined.

(** The storage of the agreement that a successful [createEscrow] makes. *)
Lemma createEscrow_storage env value created _seller days multi st a s0 st' :
  external_call (createEscrow env value created _seller days multi) st
  = (Ok (a, s0), st') ->
  s0 = {| Escrow.admin := admin (store st);
          Escrow.buyer := msg_sender env;
          Escrow.seller := _seller;
          Escrow.expiryTime := block_timestamp env + days * 86400;
          Escrow.adminFee := value * adminFeePercentage (store st) / 10000;
          Escrow.amount := value;
          Escrow.currentState := Escrow.AWAITING_DELIVERY;
          Escrow.requireMultiSig := multi;
          Escrow.buyerApproved := false;
          Escrow.sellerApproved := false |}.
Proof.
  intros Hc. apply createEscrow_Ok in Hc as (_ & _ & Hs0 & _).
  rewrite constructor_result in Hs0.
  repeat (destruct (_ <=? MAX_UINT256); [|discriminate]).
  injection Hs0 as <-. reflexivity.
Qed.

(** A caller other than the admin of an agreement is refused by
    [adminResolution]. *)
Lemma adminResolution_refused receives env b st :
  msg_sender env <> Escrow.admin (Escrow.store st) ->
  Escrow.call receives env (Escrow.AdminResolution b) st
  = (Err (Require "Only admin"), st).
Proof.
  intros Ha.
  unfold Escrow.call, external_call, Escrow.body, Escrow.adminResolution,
    Escrow.onlyAdmin.
  rewrite run_bind_assoc, EscrowExec.run_read, run_require.
  destruct (N.eqb_spec (msg_sender env) (Escrow.admin (Escrow.store st)));
    [contradiction | reflexivity].
Qed.

(** X18: [changeAdmin] by the admin hands the factory over: the new admin is
    stored, the fee, the list of agreements and the ledger stay; from then
    on [changeAdmin] and [setFeePercentage] refuse every other caller, the
    former admin included, and accept the new admin. *)
Theorem changeAdmin_hands_over receives env a st :
  msg_sender env = admin (store st) ->
  exists st',
    call receives env (ChangeAdmin a) st = (Ok tt, st')
    /\ admin (store st') = a
    /\ adminFeePercentage (store st') = adminFeePercentage (store st)
    /\ allEscrows (store st') = allEscrows (store st)
    /\ ledger st' = ledger st
    /\ (forall env' b v,
          msg_sender env' <> a ->
          call receives env' (ChangeAdmin b) st'
          = (Err (Require "Only admin"), st')
          /\ call receives env' (SetFeePercentage v) st'
             = (Err (Require "Only admin"), st'))
    /\ (forall env' v,
          msg_sender env' = a ->
          v <= 500 ->
          exists st'',
            call receives env' (SetFeePercentage v) st' = (Ok tt, st'')
            /\ adminFeePercentage (store st'') = v).
Proof.
  intros Ha. eexists. split.
  { rewrite call_result, changeAdmin_result, Ha, N.eqb_refl. reflexivity. }
  proj. repeat split.
  - rewrite call_result, changeAdmin_result. proj.
    destruct (N.eqb_spec (msg_sender env') a); [contradiction | reflexivity].
  - rewrite call_result, setFeePercentage_result. proj.
    destruct (N.eqb_spec (msg_sender env') a); [contradiction | reflexivity].
  - intros env' v Hs Hv. eexists. split.
    + rewrite call_result, setFeePercentage_result. proj.
      rewrite Hs, N.eqb_refl.
      destruct (Z.leb_spec v 500); [reflexivity | lia].
    + reflexivity.
Qed.

Lemma changeAdmin_hands_over_witness :
  let st := {| store := constructor 7 250; ledger := ∅; log := [] |} in
  exists st',
    call (fun _ => true)
      {| msg_sender := 7%N; block_timestamp := 5; this := 8%N |}
      (ChangeAdmin 4) st = (Ok tt, st')
    /\ admin (store st') = 4%N
    /\ call (fun _ => true)
         {| msg_sender := 7%N; block_timestamp := 6; this := 8%N |}
         (SetFeePercentage 100) st'
       = (Err (Require "Only admin"), st').
Proof.
  intros st.
  destruct (changeAdmin_hands_over (fun _ => true)
              {| msg_sender := 7%N; block_timestamp := 5; this := 8%N |}
              4%N st eq_refl)
    as (st' & Hcall & Hadm & _ & _ & _ & Hout & _).
  exists st'. split; [exact Hcall|]. split; [exact Hadm|].
  apply (Hout {| msg_sender := 7%N; block_timestamp := 6; this := 8%N |}
           0%N 100).
  discriminate.
Defined.

(** X19: The fee of an agreement is the one of the factory when the agreement is
    created: after an agreement is created and the admin then sets another
    fee, the first agreement keeps its fee through every sequence of calls
    on it, and an agreement created afterwards is charged the new fee, which
    is at most 500 basis points. *)
Theorem fee_fixed_at_creation receives
  env1 v1 c1 seller1 d1 m1 env2 p env3 v2 c2 seller2 d2 m2
  st a1 s1 st1 st2 a2 s2 st3 :
  external_call (createEscrow env1 v1 c1 seller1 d1 m1) st
  = (Ok (a1, s1), st1) ->
  call receives env2 (SetFeePercentage p) st1 = (Ok tt, st2) ->
  external_call (createEscrow env3 v2 c2 seller2 d2 m2) st2
  = (Ok (a2, s2), st3) ->
  Escrow.adminFee s1 = v1 * adminFeePercentage (store st) / 10000
  /\ p <= 500
  /\ Escrow.adminFee s2 = v2 * p / 10000
  /\ forall self txs l lg,
       Escrow.adminFee
         (Escrow.store
            (Escrow.run receives self txs
               {| Escrow.store := s1; Escrow.ledger := l;
                  Escrow.log := lg |}))
       = v1 * adminFeePercentage (store st) / 10000.
Proof.
  intros H1 H2 H3.
  apply createEscrow_storage in H1 as ->.
  apply createEscrow_storage in H3 as ->.
  rewrite call_result, setFeePercentage_result in H2.
  destruct (_ =? _)%N; [|discriminate].
  destruct (Z.leb_spec p 500); [|discriminate].
  injection H2 as <-. proj.
  repeat split; [assumption|].
  intros self txs l lg.
  match goal with
  | |- context [Escrow.run _ _ _ ?e] =>
      pose proof (EscrowFacts.run_same_terms receives self txs e) as Hsame
  end.
  unfold Escrow.same_terms in Hsame. cbn [Escrow.store] in Hsame.
  destruct Hsame as (_ & _ & _ & _ & -> & _). reflexivity.
Qed.

Lemma fee_fixed_at_creation_witness :
  let st := {| store := constructor 7 250;
               ledger := {[ 1%N := 2000 ]}; log := [] |} in
  let env := fun sender now =>
    {| msg_sender := sender; block_timestamp := now; this := 8%N |} in
  exists s1 st1 st2 s2 st3,
    external_call (createEscrow (env 1%N 5) 1000 9 2 30 false) st
    = (Ok (9%N, s1), st1)
    /\ call (fun _ => true) (env 7%N 6) (SetFeePercentage 100) st1
       = (Ok tt, st2)
    /\ external_call (createEscrow (env 1%N 7) 1000 10 2 30 false) st2
       = (Ok (10%N, s2), st3)
    /\ Escrow.adminFee s1 = 25
    /\ Escrow.adminFee s2 = 10.
Proof.
  intros st env.
  assert (H : exists s1 st1 st2 s2 st3,
    external_call (createEscrow (env 1%N 5) 1000 9 2 30 false) st
    = (Ok (9%N, s1), st1)
    /\ call (fun _ => true) (env 7%N 6) (SetFeePercentage 100) st1
       = (Ok tt, st2)
    /\ external_call (createEscrow (env 1%N 7) 1000 10 2 30 false) st2
       = (Ok (10%N, s2), st3)).
  { eexists _, _, _, _, _. repeat split; vm_compute; reflexivity. }
  destruct H as (s1 & st1 & st2 & s2 & st3 & H1 & H2 & H3).
  exists s1, st1, st2, s2, st3.
  split; [exact H1|]. split; [exact H2|]. split; [exact H3|].
  destruct (fee_fixed_at_creation (fun _ => true)
              _ _ _ _ _ _ _ _ _ _ _ _ _ _ _ _ _ _ _ _ _ _ H1 H2 H3)
    as (Hf1 & _ & Hf2 & _).
  rewrite Hf1, Hf2. split; reflexivity.
Defined.

(** X20: The admin of an agreement is the admin of the factory when the agreement
    is created: after the factory is handed over by [changeAdmin], the new
    admin (when another address) is refused by [adminResolution] on an
    agreement created before, whatever calls were made on it. *)
Theorem admin_fixed_at_creation receives
  env1 v c _seller d m env2 a' st a1 s1 st1 st2 :
  external_call (createEscrow env1 v c _seller d m) st = (Ok (a1, s1), st1) ->
  call receives env2 (ChangeAdmin a') st1 = (Ok tt, st2) ->
  a' <> admin (store st) ->
  Escrow.admin s1 = admin (store st)
  /\ admin (store st2) = a'
  /\ forall self txs l lg now b,
       let e := Escrow.run receives self txs
                  {| Escrow.store := s1; Escrow.ledger := l;
                     Escrow.log := lg |} in
       Escrow.call receives
         {| msg_sender := a'; block_timestamp := now; this := self |}
         (Escrow.AdminResolution b) e
       = (Err (Require "Only admin"), e).
Proof.
  intros H1 H2 Hne.
  pose proof (createEscrow_storage _ _ _ _ _ _ _ _ _ _ H1) as Hs1.
  rewrite call_result, changeAdmin_result in H2.
  destruct (_ =? _)%N; [|discriminate].
  injection H2 as <-. proj.
  split; [rewrite Hs1; reflexivity|]. split; [reflexivity|].
  intros self txs l lg now b.
  apply adminResolution_refused. cbn [msg_sender].
  match goal with
  | |- context [Escrow.run _ _ _ ?e] =>
      pose proof (EscrowFacts.run_same_terms receives self txs e) as Hsame
  end.
  unfold Escrow.same_terms in Hsame. cbn [Escrow.store] in Hsame.
  destruct Hsame as (-> & _). rewrite Hs1. exact Hne.
Qed.

Lemma admin_fixed_at_creation_witness :
  let st := {| store := constructor 7 250;
               ledger := {[ 1%N := 2000 ]}; log := [] |} in
  let env := fun sender now =>
    {| msg_sender := sender; block_timestamp := now; this := 8%N |} in
  exists s1 st1 st2,
    external_call (createEscrow (env 1%N 5) 1000 9 2 30 false) st
    = (Ok (9%N, s1), st1)
    /\ call (fun _ => true) (env 7%N 6) (ChangeAdmin 4) st1 = (Ok tt, st2)
    /\ Escrow.admin s1 = 7%N
    /\ admin (store st2) = 4%N.
Proof.
  intros st env.
  assert (H : exists s1 st1 st2,
    external_call (createEscrow (env 1%N 5) 1000 9 2 30 false) st
    = (Ok (9%N, s1), st1)
    /\ call (fun _ => true) (env 7%N 6) (ChangeAdmin 4) st1 = (Ok tt, st2)).
  { eexists _, _, _. split; vm_compute; reflexivity. }
  destruct H as (s1 & st1 & st2 & H1 & H2).
  exists s1, st1, st2. split; [exact H1|]. split; [exact H2|].
  assert (Hne : 4%N <> admin (store st)) by discriminate.
  destruct (admin_fixed_at_creation (fun _ => true) _ _ _ _ _ _ _ _ _ _ _ _ _
              H1 H2 Hne) as (Ha & Hb & _).
  split; assumption.
Defined.

(** X21: [getDetails] on the agreement that [createEscrow] has just made returns
    the admin of the factory, the caller as the buyer, the seller given, the
    state AWAITING_DELIVERY, the value sent as the amount, the expiry time
    [block.timestamp + _expiryDays * 1 days], the approval mode given and no
    approval; it changes nothing. *)
Theorem created_agreement_details
  env value created _seller days multi st a s0 st' l lg :
  external_call (createEscrow env value created _seller days multi) st
  = (Ok (a, s0), st') ->
  let e := {| Escrow.store := s0; Escrow.ledger := l; Escrow.log := lg |} in
  Escrow.getDetails e
  = (Ok (admin (store st), msg_sender env, _seller,
         Escrow.AWAITING_DELIVERY, value,
         block_timestamp env + days * 86400, multi, false, false), e).
Proof.
  intros Hc e. subst e.
  apply createEscrow_storage in Hc as ->. reflexivity.
Qed.

Lemma created_agreement_details_witness :
  let st := {| store := constructor 7 250;
               ledger := {[ 1%N := 2000 ]}; log := [] |} in
  let env := {| msg_sender := 1%N; block_timestamp := 5; this := 8%N |} in
  exists s0 st',
    external_call (createEscrow env 1000 9 2 30 true) st
    = (Ok (9%N, s0), st')
    /\ fst (Escrow.getDetails
              {| Escrow.store := s0; Escrow.ledger := ledger st';
                 Escrow.log := [] |})
       = Ok (7%N, 1%N, 2%N, Escrow.AWAITING_DELIVERY, 1000, 2592005, true,
             false, false).
Proof.
  intros st env.
  assert (H : exists s0 st',
    external_call (createEscrow env 1000 9 2 30 true) st
    = (Ok (9%N, s0), st')).
  { eexists _, _. vm_compute. reflexivity. }
  destruct H as (s0 & st' & H).
  exists s0, st'. split; [exact H|].
  rewrite (created_agreement_details _ _ _ _ _ _ _ _ _ _ (ledger st') [] H).
  reflexivity.
Defined.

Lemma factory_conserves_value_witness :
  let st := {| store := constructor 7 250;
               ledger := {[ 1%N := 1000 ]}; log := [] |} in
  let st' := run (fun _ => true) 8
               [(1%N, 5, CreateEscrow 400 9 2 30 false); (2%N, 6, WithdrawFees);
                (1%N, 7, CreateEscrow 700 10 2 0 true)] st in
  Ledger.total (ledger st') = 1000 /\ Ledger.non_negative (ledger st').
Proof.
  intros st st'.
  destruct (factory_conserves_value (fun _ => true) 8
              [(1%N, 5, CreateEscrow 400 9 2 30 false); (2%N, 6, WithdrawFees);
               (1%N, 7, CreateEscrow 700 10 2 0 true)] st) as [Ht Hn].
  split.
  - unfold st'. rewrite Ht. vm_compute. reflexivity.
  - apply Hn. intros a. unfold Ledger.balanceOf, st, ledger.
    destruct (decide (a = 1%N)) as [->|Hne].
    + rewrite lookup_singleton_eq. simpl. lia.
    + rewrite lookup_singleton_ne by congruence. simpl. lia.
Defined.

End MoreRegistry.
